(** * Attendance system: ID-card name / registration-number extraction

    A shallow embedding of [processImage.py]: the functions
    [extract_vit_id_multiline], [are_blocks_vertically_close],
    [score_name_candidate_multiline], [clean_and_correct_name] and
    [fix_ocr_errors], together with the sort that [lambda_handler] applies
    to the OCR lines before calling the extractor.

    Modelling conventions.
    - Python [str] is [string]; the character predicates and case maps of
      Python ([isdigit], [isalpha], [isupper], [isspace], [upper], [lower])
      are given on the ASCII range, bytes above 127 being neither letters,
      digits nor white space.
    - Python [int] is [Z].
    - The bounding-box numbers (Python [float]) are the rationals [Q] they
      denote; they are compared exactly, and their sums and differences
      are rounded to the nearest double as Python rounds them
      ([Binary64]).  The two percentage tests of the scorer, which compare
      an integer count with [len(text) * 0.2] and [len(text) * 0.85], are
      written on integers ([5 * digits > len], [20 * alpha > 17 * len]).
    - [print] calls are dropped; the S3 upload and the Textract call of
      [lambda_handler] are outside the embedding.
    - [list.sort] is Python's stable sort. *)

From Stdlib Require Import String Ascii List ZArith QArith Bool Lia.
From Stdlib Require Import Permutation Sorted.
Import ListNotations.

Local Open Scope list_scope.
Local Open Scope string_scope.
Local Open Scope Z_scope.

(** ** Characters *)

Module Char.

Definition code (c : ascii) : nat := nat_of_ascii c.

Definition between (lo hi : nat) (c : ascii) : bool :=
  (Nat.leb lo (code c) && Nat.leb (code c) hi)%bool.

(** [c.isdigit()], regex [\d] *)
Definition isdigit (c : ascii) : bool := between 48 57 c.

(** [c.isupper()], regex [[A-Z]] *)
Definition isupper (c : ascii) : bool := between 65 90 c.

Definition islower (c : ascii) : bool := between 97 122 c.

(** [c.isalpha()], regex [[a-zA-Z]] *)
Definition isalpha (c : ascii) : bool := (isupper c || islower c)%bool.

(** [c.isspace()], regex [\s]: tab, newline, vertical tab, form feed,
    carriage return, the four separators 0x1c-0x1f and the space. *)
Definition isspace (c : ascii) : bool :=
  (between 9 13 c || between 28 32 c)%bool.

(** regex [\w] *)
Definition isword (c : ascii) : bool :=
  (isalpha c || isdigit c || Nat.eqb (code c) 95)%bool.

Definition upper (c : ascii) : ascii :=
  if islower c then ascii_of_nat (code c - 32) else c.

Definition lower (c : ascii) : ascii :=
  if isupper c then ascii_of_nat (code c + 32) else c.

End Char.

(** ** Strings: the [str] methods the program uses *)

Module Str.

Fixpoint map (f : ascii -> ascii) (s : string) : string :=
  match s with
  | EmptyString => EmptyString
  | String c r => String (f c) (map f r)
  end.

Fixpoint filter (p : ascii -> bool) (s : string) : string :=
  match s with
  | EmptyString => EmptyString
  | String c r => if p c then String c (filter p r) else filter p r
  end.

Fixpoint count (p : ascii -> bool) (s : string) : Z :=
  match s with
  | EmptyString => 0
  | String c r => (if p c then 1 else 0) + count p r
  end.

Fixpoint forallb (p : ascii -> bool) (s : string) : bool :=
  match s with
  | EmptyString => true
  | String c r => (p c && forallb p r)%bool
  end.

(** [len(s)] *)
Definition len (s : string) : Z := Z.of_nat (String.length s).

(** [s.upper()], [s.lower()] *)
Definition upper (s : string) : string := map Char.upper s.
Definition lower (s : string) : string := map Char.lower s.

(** [s.capitalize()] *)
Definition capitalize (s : string) : string :=
  match s with
  | EmptyString => EmptyString
  | String c r => String (Char.upper c) (lower r)
  end.

(** [s.replace(old, new)] for one-character [old] and [new] *)
Definition replace_char (old new : ascii) (s : string) : string :=
  map (fun c => if Ascii.eqb c old then new else c) s.

(** [s.replace(old, '')] for a one-character [old] *)
Definition remove_char (old : ascii) (s : string) : string :=
  filter (fun c => negb (Ascii.eqb c old)) s.

(** [sub in s] *)
Fixpoint contains (sub s : string) : bool :=
  (String.prefix sub s ||
   match s with
   | EmptyString => false
   | String _ r => contains sub r
   end)%bool.

Fixpoint lstrip (s : string) : string :=
  match s with
  | EmptyString => EmptyString
  | String c r => if Char.isspace c then lstrip r else s
  end.

Fixpoint rstrip (s : string) : string :=
  match s with
  | EmptyString => EmptyString
  | String c r =>
      match rstrip r with
      | EmptyString => if Char.isspace c then EmptyString else String c EmptyString
      | t => String c t
      end
  end.

(** [s.strip()] *)
Definition strip (s : string) : string := rstrip (lstrip s).

(** [s.split()]: the maximal runs of non-space characters. [tok] is the
    run being read. *)
Fixpoint split_from (tok s : string) : list string :=
  match s with
  | EmptyString => if String.eqb tok "" then [] else [tok]
  | String c r =>
      if Char.isspace c
      then (if String.eqb tok "" then split_from "" r
            else tok :: split_from "" r)
      else split_from (tok ++ String c "") r
  end.

Definition split (s : string) : list string := split_from "" s.

(** [sep.join(l)] *)
Definition join (sep : string) (l : list string) : string :=
  String.concat sep l.

End Str.

(** [l[i:j]] for [0 <= i], the only slices the program takes *)
Definition slice {A : Type} (l : list A) (i j : Z) : list A :=
  firstn (Z.to_nat (j - i)) (skipn (Z.to_nat i) l).

(** ** Regular expressions

    The program uses seven fixed patterns.  Each is a sequence of
    character classes with counted or starred repetition, so it is matched
    by reading the classes off the front of the text.  [re.search] tries
    every start position from the left; [\b] sees the character before the
    match. *)

Module Re.

(** [cls{n}] at the front of [s]: the text read and the rest *)
Fixpoint rep (cls : ascii -> bool) (n : nat) (s : string)
  : option (string * string) :=
  match n with
  | O => Some ("", s)
  | S k =>
      match s with
      | String c r =>
          if cls c
          then match rep cls k r with
               | Some (m, t) => Some (String c m, t)
               | None => None
               end
          else None
      | EmptyString => None
      end
  end.

(** [cls*] at the front of [s], greedy *)
Fixpoint star (cls : ascii -> bool) (s : string) : string * string :=
  match s with
  | String c r =>
      if cls c then let (m, t) := star cls r in (String c m, t) else ("", s)
  | EmptyString => ("", s)
  end.

Definition word_of (c : option ascii) : bool :=
  match c with Some a => Char.isword a | None => false end.

Definition head (s : string) : option ascii :=
  match s with String c _ => Some c | EmptyString => None end.

Fixpoint last (prev : option ascii) (s : string) : option ascii :=
  match s with String c r => last (Some c) r | EmptyString => prev end.

(** [\b] between the character [prev] and the text [s] *)
Definition boundary (prev : option ascii) (s : string) : bool :=
  xorb (word_of prev) (word_of (head s)).

(** [\b\d{2}[A-Z]{3}\d{4}\b] anchored at the front of [s] *)
Definition rg_strict_at (prev : option ascii) (s : string) : option string :=
  if boundary prev s then
    match rep Char.isdigit 2 s with
    | Some (a, s1) =>
        match rep Char.isupper 3 s1 with
        | Some (b, s2) =>
            match rep Char.isdigit 4 s2 with
            | Some (c, s3) =>
                let m := a ++ b ++ c in
                if boundary (last prev m) s3 then Some m else None
            | None => None
            end
        | None => None
        end
    | None => None
    end
  else None.

(** [\d{k}\b] for the first [k] of [ks] that matches: the greedy
    [\d{3,5}\b] tries 5, 4, 3 *)
Fixpoint digits_then_boundary (ks : list nat) (s : string)
  : option string :=
  match ks with
  | [] => None
  | k :: rest =>
      match rep Char.isdigit k s with
      | Some (c, t) =>
          if boundary (last None c) t then Some c
          else digits_then_boundary rest s
      | None => digits_then_boundary rest s
      end
  end.

(** [\b\d{2}[A-Z]{3}\d{3,5}\b] anchored at the front of [s] *)
Definition rg_loose_at (prev : option ascii) (s : string) : option string :=
  if boundary prev s then
    match rep Char.isdigit 2 s with
    | Some (a, s1) =>
        match rep Char.isupper 3 s1 with
        | Some (b, s2) =>
            match digits_then_boundary [5; 4; 3]%nat s2 with
            | Some c => Some (a ++ b ++ c)
            | None => None
            end
        | None => None
        end
    | None => None
    end
  else None.

(** [\b\d{2}\s*[A-Z]{3}\s*\d{4}\b] anchored at the front of [s]; a letter
    or digit is never white space, so each [\s*] reads its whole run *)
Definition rg_spaced_at (prev : option ascii) (s : string) : option string :=
  if boundary prev s then
    match rep Char.isdigit 2 s with
    | Some (a, s1) =>
        let (w1, s2) := star Char.isspace s1 in
        match rep Char.isupper 3 s2 with
        | Some (b, s3) =>
            let (w2, s4) := star Char.isspace s3 in
            match rep Char.isdigit 4 s4 with
            | Some (c, s5) =>
                let m := a ++ w1 ++ b ++ w2 ++ c in
                if boundary (last prev m) s5 then Some m else None
            | None => None
            end
        | None => None
        end
    | None => None
    end
  else None.

(** [\d{2}[A-Z]{3}\d{4}] anchored at the front of [s] *)
Definition rg_plain_at (_ : option ascii) (s : string) : option string :=
  match rep Char.isdigit 2 s with
  | Some (a, s1) =>
      match rep Char.isupper 3 s1 with
      | Some (b, s2) =>
          match rep Char.isdigit 4 s2 with
          | Some (c, _) => Some (a ++ b ++ c)
          | None => None
          end
      | None => None
      end
  | None => None
  end.

(** [re.search(p, s)] for a pattern [p] given by its anchored matcher:
    the match at the leftmost start position, [match.group(0)] *)
Fixpoint search_from (at_ : option ascii -> string -> option string)
    (prev : option ascii) (s : string) : option string :=
  match at_ prev s with
  | Some m => Some m
  | None =>
      match s with
      | String c r => search_from at_ (Some c) r
      | EmptyString => None
      end
  end.

Definition search (at_ : option ascii -> string -> option string)
    (s : string) : option string :=
  search_from at_ None s.

End Re.

(** ** Double-precision arithmetic

    A finite Python [float] is a rational [m * 2^e] with [|m| < 2^53] and
    [-1074 <= e].  The sum and the difference of two floats are the exact
    result rounded to the nearest such number, ties going to the even
    [m].  A result too large for a double, infinite in Python, stays a
    finite number of the same sign here; the comparisons of the program do
    not tell the two apart. *)

Module Binary64.

(** The integer nearest to [n / d], for [d > 0]; ties to even *)
Definition nearest_even (n d : Z) : Z :=
  let q := n / d in
  let r := n mod d in
  if 2 * r <? d then q
  else if d <? 2 * r then q + 1
  else if Z.even q then q else q + 1.

(** The [k] with [2^k <= n / d < 2^(k+1)], for [n > 0] and [d > 0] *)
Definition log2_ratio (n d : Z) : Z :=
  let k := Z.log2 n - Z.log2 d in
  if (if 0 <=? k then d * 2 ^ k <=? n else d <=? n * 2 ^ (- k))
  then k else k - 1.

(** [m * 2^e] *)
Definition scale (m e : Z) : Q :=
  if 0 <=? e then (m * 2 ^ e) # 1 else m # Z.to_pos (2 ^ (- e)).

(** The double nearest to [n / d], for [n > 0] and [d > 0]: 53
    significant bits, the last of weight [2^e] with [e >= -1074] *)
Definition round_pos (n d : Z) : Q :=
  let e := Z.max (-1074) (log2_ratio n d - 52) in
  let m :=
    if 0 <=? e then nearest_even n (d * 2 ^ e)
    else nearest_even (n * 2 ^ (- e)) d in
  scale m e.

(** The double nearest to [x]: what a decimal literal denotes and what an
    arithmetic operation returns *)
Definition round (x : Q) : Q :=
  let n := Qnum x in
  let d := Z.pos (Qden x) in
  if n =? 0 then 0%Q
  else if 0 <? n then round_pos n d
  else Qopp (round_pos (- n) d).

(** [a + b] and [a - b] on floats *)
Definition add (a b : Q) : Q := round (a + b).
Definition sub (a b : Q) : Q := round (a - b).

End Binary64.

Arguments Binary64.round : simpl never.

(** ** Data model *)

(** One OCR line, as [lambda_handler] builds it from a Textract block *)
Module TextBlock.
Record t : Type := mk {
  text : string;
  confidence : Q;
  top : Q;
  left : Q;
  height : Q;
  width : Q
}.
End TextBlock.

(** An entry of [name_candidates] *)
Module Candidate.
Record t : Type := mk {
  name : string;
  score : Z;
  lines : Z;
  start_idx : Z;
  end_idx : Z;
  raw_lines : list string
}.
End Candidate.

(** The dictionary under the key ['debug'] of the result *)
Module Debug.
Record t : Type := mk {
  totalLines : Z;
  rgFoundAt : Z;
  candidatesFound : Z;
  topCandidate : option Candidate.t
}.
End Debug.

(** The dictionary [extract_vit_id_multiline] returns *)
Module Result.
Record t : Type := mk {
  name : string;
  rgNumber : string;
  success : bool;
  debug : Debug.t
}.
End Result.

(** ** Lists: [range], [enumerate] and the stable [list.sort] *)

(** [range(a, b)] *)
Definition range (a b : Z) : list Z :=
  List.map (fun k => a + Z.of_nat k) (seq 0 (Z.to_nat (b - a))).

(** [enumerate(l)] counting from [i] *)
Fixpoint enumerate_from {A : Type} (i : Z) (l : list A) : list (Z * A) :=
  match l with
  | [] => []
  | x :: r => (i, x) :: enumerate_from (i + 1) r
  end.

Definition enumerate {A : Type} (l : list A) : list (Z * A) :=
  enumerate_from 0 l.

(** [list.sort] is stable: [x], which stood before every element of [l],
    stays before those it does not have to follow.  [first y x] says that
    the key of [y] puts it strictly before [x]. *)
Fixpoint insert_stable {A : Type} (first : A -> A -> bool) (x : A)
    (l : list A) : list A :=
  match l with
  | [] => [x]
  | y :: r => if first y x then y :: insert_stable first x r else x :: l
  end.

Definition stable_sort {A : Type} (first : A -> A -> bool) (l : list A)
  : list A :=
  fold_right (insert_stable first) [] l.

(** [a > b] on the rationals *)
Definition Qgtb (a b : Q) : bool := negb (Qle_bool a b).

(** The order [sort_by_top] establishes *)
Definition top_le (a b : TextBlock.t) : Prop :=
  (TextBlock.top a <= TextBlock.top b)%Q.

(** [text_blocks.sort(key=lambda x: x['top'])] *)
Definition sort_by_top (text_blocks : list TextBlock.t)
  : list TextBlock.t :=
  stable_sort (fun y x => Qgtb (TextBlock.top x) (TextBlock.top y)) text_blocks.

(** [name_candidates.sort(key=lambda x: x['score'], reverse=True)] *)
Definition sort_by_score (name_candidates : list Candidate.t)
  : list Candidate.t :=
  stable_sort (fun y x => Candidate.score y >? Candidate.score x)
    name_candidates.

(** ** ProximityFilter: [are_blocks_vertically_close] *)

(** The default [max_gap=0.015] *)
Definition default_max_gap : Q := Binary64.round (15 # 1000).

Fixpoint are_blocks_vertically_close_gap (max_gap : Q)
    (blocks : list TextBlock.t) : bool :=
  match blocks with
  | cur :: ((next :: _) as rest) =>
      let current_bottom :=
        Binary64.add (TextBlock.top cur) (TextBlock.height cur) in
      let next_top := TextBlock.top next in
      let gap := Binary64.sub next_top current_bottom in
      if Qgtb gap max_gap then false
      else are_blocks_vertically_close_gap max_gap rest
  | _ => true
  end.

Definition are_blocks_vertically_close (blocks : list TextBlock.t) : bool :=
  are_blocks_vertically_close_gap default_max_gap blocks.

(** ** CandidateScorer: [score_name_candidate_multiline] *)

Definition skip_keywords : list string :=
  [ "VIT"; "VELLORE"; "INSTITUTE"; "TECHNOLOGY"; "CHENNAI"; "CAMPUS";
    "DEEMED"; "UNIVERSITY"; "UGC"; "SECTION"; "ACT"; "1956";
    "DAY"; "SCHOLAR"; "HOSTEL"; "BLOCK"; "VALID"; "UNTIL";
    "HTTP"; "WWW"; ".COM"; ".IN"; "STUDENT"; "CARD"; "IDENTITY";
    "REGISTRATION"; "NUMBER"; "DATE"; "ISSUE"; "BLOOD"; "GROUP" ].

(** The body of the loop over [raw_lines] that ends the scorer *)
Definition line_bonus (score : Z) (line : string) : Z :=
  if 3 <=? Str.len (Str.strip line) then score + 2 else score.

(** The additive part of the scorer, reached when no disqualifier fires;
    [text] is already stripped. *)
Definition positive_indicators (text : string) (raw_lines : list string)
    (start_idx rg_index num_lines : Z) (near_name_keyword : bool) : Z :=
  let score := 0 in
  let score := score + 5 in
  let score :=
    if (8 <=? Str.len text) && (Str.len text <=? 50) then score + 5
    else if (50 <? Str.len text) && (Str.len text <=? 70) then score + 2
    else score in
  let words := List.filter (fun w => 2 <=? Str.len w) (Str.split text) in
  let word_count := Z.of_nat (List.length words) in
  let score :=
    if word_count =? 2 then score + 8
    else if word_count =? 3 then score + 10
    else if word_count =? 4 then score + 8
    else if word_count =? 5 then score + 5
    else if 6 <=? word_count then score + 2
    else score in
  let alpha_count := Str.count Char.isalpha text in
  let score :=
    if 20 * alpha_count >? 17 * Str.len text then score + 5 else score in
  let score :=
    if 2 <=? Str.count Char.isupper text then score + 4 else score in
  let score :=
    if num_lines =? 2 then score + 6
    else if num_lines =? 3 then score + 4
    else score in
  let score :=
    if rg_index >? 0 then
      let distance := rg_index - (start_idx + num_lines - 1) in
      if distance =? 1 then score + 15
      else if distance =? 2 then score + 10
      else if distance =? 3 then score + 5
      else score
    else score in
  let score := if near_name_keyword then score + 12 else score in
  let score := fold_left line_bonus raw_lines score in
  Z.max 0 score.

Definition score_name_candidate_multiline (text : string)
    (raw_lines : list string) (start_idx rg_index num_lines : Z)
    (near_name_keyword : bool) : Z :=
  if String.eqb text "" || (Str.len (Str.strip text) <? 3) then 0
  else
    let text := Str.strip text in
    let upper_text := Str.upper text in
    if existsb (fun keyword => Str.contains keyword upper_text) skip_keywords
    then 0
    else
      match Re.search Re.rg_plain_at (Str.remove_char " " upper_text) with
      | Some _ => 0
      | None =>
          let digit_count := Str.count Char.isdigit text in
          if 5 * digit_count >? Str.len text then 0
          else positive_indicators text raw_lines start_idx rg_index
                 num_lines near_name_keyword
      end.

(** ** Per-token OCR correction: [fix_ocr_errors] *)

Definition replacements : list (ascii * ascii) :=
  [ ("0", "O"); ("1", "I"); ("5", "S"); ("8", "B") ]%char.

Definition incomplete_patterns : list (string * string) :=
  [ ("amaneni", "Annamaneni");
    ("nnamaneni", "Annamaneni");
    ("naman", "Anaman") ].

(** The loop over [replacements]: [corrected] is rewritten for every
    digit of the table that occurs in [word]. *)
Definition apply_replacements (word : string) : string :=
  fold_left
    (fun corrected '(wrong, right') =>
       if Str.contains (String wrong "") word
       then Str.replace_char wrong right' corrected
       else corrected)
    replacements word.

(** The loop over [incomplete_patterns]: the fix of the first pattern
    that occurs in [word_lower]. *)
Fixpoint first_pattern (patterns : list (string * string))
    (word_lower : string) : option string :=
  match patterns with
  | [] => None
  | (pattern, fix') :: rest =>
      if Str.contains pattern word_lower then Some fix'
      else first_pattern rest word_lower
  end.

(** The block under [if len(word) >= 4]: the canonical name the function
    returns early, if any *)
Definition incomplete_fix (word : string) : option string :=
  if 4 <=? Str.len word
  then first_pattern incomplete_patterns (Str.lower word)
  else None.

Definition fix_ocr_errors (word : string) : string :=
  let corrected := apply_replacements word in
  match incomplete_fix word with
  | Some fix' => fix'
  | None => Str.capitalize corrected
  end.

(** The same function without the loop over [replacements] *)
Definition fix_ocr_errors_no_digits (word : string) : string :=
  match incomplete_fix word with
  | Some fix' => fix'
  | None => Str.capitalize word
  end.

(** ** NameNormalizer: [clean_and_correct_name] *)

Definition not_digit (c : ascii) : bool := negb (Char.isdigit c).

(** [re.sub(r'\d+', '', name)]: every digit goes *)
Definition remove_numbers (name : string) : string :=
  Str.filter not_digit name.

(** The class [[a-zA-Z\s\.\']] *)
Definition name_char (c : ascii) : bool :=
  Char.isalpha c || Char.isspace c || Ascii.eqb c "." || Ascii.eqb c "'".

(** [re.sub(r'[^a-zA-Z\s\.\']', '', name)] *)
Definition remove_special (name : string) : string :=
  Str.filter name_char name.

(** [$]: the end of the text, or just before a newline that ends it *)
Definition at_end (s : string) : bool :=
  String.eqb s "" || String.eqb s (String "010" "").

(** [\s+[A-Za-z]$] anchored at the front of [s]; the text after the match.
    A letter is not white space, so [\s+] reads its whole run. *)
Definition trailing_letter_at (s : string) : option string :=
  match Re.star Char.isspace s with
  | (String _ _, String c r) =>
      if Char.isalpha c && at_end r then Some r else None
  | _ => None
  end.

(** [re.sub(r'\s+[A-Za-z]$', '', s)]: after a match only the end of the
    text is left, so there is at most one. *)
Fixpoint remove_trailing_letter (s : string) : string :=
  match trailing_letter_at s with
  | Some r => r
  | None =>
      match s with
      | String c r => String c (remove_trailing_letter r)
      | EmptyString => EmptyString
      end
  end.

(** The first half of [clean_and_correct_name]: the list [words] *)
Definition name_words (name : string) : list string :=
  let name := Str.join " " (Str.split name) in
  let name := remove_numbers name in
  let name := remove_special name in
  List.filter (fun w => 2 <=? Str.len w) (Str.split name).

(** [clean_and_correct_name], with the per-token correction as a
    parameter *)
Definition clean_and_correct_name_with (fix_word : string -> string)
    (name : string) : string :=
  let words := name_words name in
  let corrected_words := List.map fix_word words in
  let formatted := List.map Str.capitalize corrected_words in
  let final_name := Str.strip (Str.join " " formatted) in
  remove_trailing_letter final_name.

Definition clean_and_correct_name (name : string) : string :=
  clean_and_correct_name_with fix_ocr_errors name.

(** ** AnchorLocator: step 1 of [extract_vit_id_multiline] *)

Definition rg_patterns : list (option ascii -> string -> option string) :=
  [ Re.rg_strict_at; Re.rg_loose_at; Re.rg_spaced_at ].

(** The inner loop: the match of the first pattern found in [line_clean] *)
Fixpoint first_match
    (patterns : list (option ascii -> string -> option string))
    (line_clean : string) : option string :=
  match patterns with
  | [] => None
  | pattern :: rest =>
      match Re.search pattern line_clean with
      | Some m => Some m
      | None => first_match rest line_clean
      end
  end.

Definition clean_line (line : string) : string :=
  Str.remove_char "-" (Str.remove_char " " (Str.upper line)).

(** The outer loop, on the state [(rg_number, rg_index)]; it stops once
    [rg_number] differs from ["Not Found"]. *)
Fixpoint find_rg_from (i : Z) (lines : list string) (st : string * Z)
  : string * Z :=
  match lines with
  | [] => st
  | line :: rest =>
      let line_clean := clean_line line in
      let st' :=
        match first_match rg_patterns line_clean with
        | Some m => (m, i)
        | None => st
        end in
      if negb (String.eqb (fst st') "Not Found") then st'
      else find_rg_from (i + 1) rest st'
  end.

Definition find_rg (lines : list string) : string * Z :=
  find_rg_from 0 lines ("Not Found", -1).

(** ** CandidateGenerator: steps 2 and 3 of [extract_vit_id_multiline] *)

Section Generator.

Variable text_blocks : list TextBlock.t.
Variable lines : list string.
Variable rg_index : Z.

(** The loop over [start_idx] of step 2, for one [num_lines]; [break]
    ends it, [continue] goes to the next start. *)
Fixpoint above_anchor_starts (search_end num_lines : Z) (starts : list Z)
  : list Candidate.t :=
  match starts with
  | [] => []
  | start_idx :: rest =>
      let end_idx := start_idx + num_lines in
      if end_idx >? search_end then []
      else if (num_lines >? 1)
              && negb (are_blocks_vertically_close
                         (slice text_blocks start_idx end_idx))
      then above_anchor_starts search_end num_lines rest
      else
        let merged_lines := slice lines start_idx end_idx in
        let merged_text := Str.join " " merged_lines in
        let score :=
          score_name_candidate_multiline merged_text merged_lines
            start_idx rg_index num_lines false in
        if score >? 0
        then Candidate.mk merged_text score num_lines start_idx end_idx
               merged_lines
             :: above_anchor_starts search_end num_lines rest
        else above_anchor_starts search_end num_lines rest
  end.

(** Step 2: the candidates above the registration number, in the order
    they are appended *)
Definition above_anchor : list Candidate.t :=
  if rg_index >? 0 then
    let search_start := Z.max 0 (rg_index - 6) in
    let search_end := rg_index in
    flat_map
      (fun num_lines =>
         above_anchor_starts search_end num_lines
           (range search_start search_end))
      [1; 2; 3]
  else [].

(** The loop over [num_lines] of step 3 for the keyword line [i] *)
Fixpoint after_keyword_spans (i : Z) (spans : list Z) : list Candidate.t :=
  match spans with
  | [] => []
  | num_lines :: rest =>
      if i + num_lines <? Z.of_nat (List.length lines) then
        let start_idx := i + 1 in
        let end_idx := start_idx + num_lines in
        if end_idx >? Z.of_nat (List.length lines) then []
        else
          let merged_lines := slice lines start_idx end_idx in
          let merged_text := Str.join " " merged_lines in
          let score :=
            score_name_candidate_multiline merged_text merged_lines
              start_idx rg_index num_lines true in
          if score >? 0
          then Candidate.mk merged_text (score + 10) num_lines start_idx
                 end_idx merged_lines
               :: after_keyword_spans i rest
          else after_keyword_spans i rest
      else after_keyword_spans i rest
  end.

(** Step 3: the candidates after a line that contains ["NAME"] *)
Definition after_keyword : list Candidate.t :=
  flat_map
    (fun '(i, line) =>
       if Str.contains "NAME" (Str.upper line)
       then after_keyword_spans i [1; 2; 3]
       else [])
    (enumerate lines).

End Generator.

(** ** The extractor *)

(** [lines = [block['text'].strip() for block in text_blocks]] *)
Definition lines_of (text_blocks : list TextBlock.t) : list string :=
  List.map (fun block => Str.strip (TextBlock.text block)) text_blocks.

(** [name_candidates] as it stands before step 4 *)
Definition name_candidates (text_blocks : list TextBlock.t)
  : list Candidate.t :=
  let lines := lines_of text_blocks in
  let rg_index := snd (find_rg lines) in
  (above_anchor text_blocks lines rg_index ++ after_keyword lines rg_index)%list.

Definition extract_vit_id_multiline (text_blocks : list TextBlock.t)
  : Result.t :=
  let lines := lines_of text_blocks in
  let '(rg_number, rg_index) := find_rg lines in
  let name_candidates :=
    (above_anchor text_blocks lines rg_index
       ++ after_keyword lines rg_index)%list in
  let name_candidates := sort_by_score name_candidates in
  let name :=
    match name_candidates with
    | best :: _ => clean_and_correct_name (Candidate.name best)
    | [] => "Unknown"
    end in
  Result.mk name rg_number true
    (Debug.mk (Z.of_nat (List.length lines)) rg_index
       (Z.of_nat (List.length name_candidates))
       (List.hd_error name_candidates)).

(** The part of [lambda_handler] between the Textract response and the
    HTTP reply: sort the lines by [top], then extract. *)
Definition process_blocks (text_blocks : list TextBlock.t) : Result.t :=
  extract_vit_id_multiline (sort_by_top text_blocks).

(** ** Clean names

    The shape the specification calls a clean "Firstname Lastname": two
    words joined by one space, each an upper-case letter followed by one
    or more lower-case letters. *)

Definition capitalized_word (w : string) : bool :=
  match w with
  | String c r =>
      Char.isupper c && Nat.leb 1 (String.length r)
      && Str.forallb Char.islower r
  | EmptyString => false
  end.

(** The dictionary of truncated names leaves [w] alone: no fragment
    occurs in it, or the canonical name it would get is [w] itself. *)
Definition dictionary_keeps (w : string) : Prop :=
  incomplete_fix w = None \/ incomplete_fix w = Some w.

Definition not_space (c : ascii) : bool := negb (Char.isspace c).

(** ** Identifier shapes

    What the specification calls the three shapes of an identifier, said
    on the text itself. *)

(** [s] has one character for each class of [classes], in order *)
Fixpoint has_shape (classes : list (ascii -> bool)) (s : string) : bool :=
  match classes, s with
  | [], EmptyString => true
  | cls :: rest, String c r => cls c && has_shape rest r
  | _, _ => false
  end.

Definition digits (n : nat) : list (ascii -> bool) := repeat Char.isdigit n.
Definition capitals (n : nat) : list (ascii -> bool) := repeat Char.isupper n.

(** 2 digits, 3 letters, 4 digits *)
Definition strict_shape (s : string) : Prop :=
  has_shape (digits 2 ++ capitals 3 ++ digits 4)%list s = true.

(** 2 digits, 3 letters, 3 to 5 digits *)
Definition loose_shape (s : string) : Prop :=
  exists k, (3 <= k <= 5)%nat /\
    has_shape (digits 2 ++ capitals 3 ++ digits k)%list s = true.

(** 2 digits, 3 letters, 4 digits, with white space allowed around the
    letters *)
Definition spaced_shape (s : string) : Prop :=
  exists a w1 b w2 c,
    s = a ++ w1 ++ b ++ w2 ++ c /\
    has_shape (digits 2) a = true /\ Str.forallb Char.isspace w1 = true /\
    has_shape (capitals 3) b = true /\ Str.forallb Char.isspace w2 = true /\
    has_shape (digits 4) c = true.

Definition identifier_shape (s : string) : Prop :=
  strict_shape s \/ loose_shape s \/ spaced_shape s.

Definition prefix_of (m s : string) : Prop := exists t, s = m ++ t.

Definition substring_of (m s : string) : Prop :=
  exists pre post, s = pre ++ m ++ post.

(** No pattern of [rg_patterns] is found in the line *)
Definition no_identifier (line : string) : Prop :=
  first_match rg_patterns (clean_line line) = None.

(** ** [lambda_handler] of [processImage.py]: around the extractor *)

(** [s.split(sep)] for a one-character [sep]: the pieces between the
    separators, empty ones included.  [cur] is the piece being read. *)
Fixpoint split_on_from (sep : ascii) (cur s : string) : list string :=
  match s with
  | EmptyString => [cur]
  | String c r =>
      if Ascii.eqb c sep then cur :: split_on_from sep "" r
      else split_on_from sep (cur ++ String c "") r
  end.

Definition split_on (sep : ascii) (s : string) : list string :=
  split_on_from sep "" s.

(** [if ',' in image_data: image_data = image_data.split(',')[1]]; the
    list has a second entry whenever a comma occurs. *)
Definition strip_data_url (image_data : string) : string :=
  if Str.contains "," image_data
  then nth 1 (split_on "," image_data) ""
  else image_data.

(** A block of the Textract response, with the keys the handler reads *)
Module Block.
Record t : Type := mk {
  BlockType : string;
  Text : string;
  Confidence : option Q;
  Top : Q;
  Left : Q;
  Height : Q;
  Width : Q
}.
End Block.

(** The loop over [response['Blocks']] that fills [text_blocks] *)
Definition text_blocks_of (blocks : list Block.t) : list TextBlock.t :=
  flat_map
    (fun block =>
       if String.eqb (Block.BlockType block) "LINE"
       then [ TextBlock.mk (Block.Text block)
                (match Block.Confidence block with
                 | Some c => c
                 | None => 0%Q
                 end)
                (Block.Top block) (Block.Left block) (Block.Height block)
                (Block.Width block) ]
       else [])
    blocks.

(** From the Textract response to the result *)
Definition process_response (blocks : list Block.t) : Result.t :=
  process_blocks (text_blocks_of blocks).

(** ** [lambda_handler] of [saveToDatabase.py]: the name of a new user *)

(** [user_email.split('@')[0]] *)
Definition new_user_full_name (user_email : string) : string :=
  hd "" (split_on "@" user_email).

(** ** Vocabulary of the properties *)

(** The four disqualifiers of the scorer, on the stripped text *)
Definition too_short (text : string) : Prop := Str.len text < 3.

Definition has_skip_keyword (text : string) : Prop :=
  exists keyword,
    In keyword skip_keywords /\ Str.contains keyword (Str.upper text) = true.

Definition holds_identifier (text : string) : Prop :=
  Re.search Re.rg_plain_at (Str.remove_char " " (Str.upper text)) <> None.

Definition mostly_digits (text : string) : Prop :=
  5 * Str.count Char.isdigit text > Str.len text.

Definition disqualified (text : string) : Prop :=
  too_short text \/ has_skip_keyword text \/ holds_identifier text \/
  mostly_digits text.

(** The multi-line bonus of the scorer *)
Definition multi_line_bonus (num_lines : Z) : Z :=
  if num_lines =? 2 then 6 else if num_lines =? 3 then 4 else 0.

(** A keyword line *)
Definition is_keyword_line (line : string) : bool :=
  Str.contains "NAME" (Str.upper line).

(** The gap the proximity test looks at, as the program computes it:
    the top of the lower block minus the bottom of the upper one, each
    operation rounded *)
Definition gap (cur next : TextBlock.t) : Q :=
  Binary64.sub (TextBlock.top next)
    (Binary64.add (TextBlock.top cur) (TextBlock.height cur)).

(** The characters a normalized name is made of, the space apart *)
Definition token_char (c : ascii) : bool :=
  Char.isalpha c || Ascii.eqb c "." || Ascii.eqb c "'".

Definition output_char (c : ascii) : bool :=
  token_char c || Ascii.eqb c " ".

(** What the normalizer makes of one word *)
Definition normalize_word (w : string) : string :=
  Str.capitalize (fix_ocr_errors w).

(** A word of a name: two characters or more, letters, periods and
    apostrophes only *)
Definition word_token (w : string) : Prop :=
  2 <= Str.len w /\ Str.forallb token_char w = true.

(** The characters an identifier is never made of *)
Definition identifier_char (c : ascii) : bool :=
  negb (Ascii.eqb c " ") && negb (Ascii.eqb c "-") && negb (Char.islower c).

Definition same_top (q : Q) (b : TextBlock.t) : bool :=
  Qeq_bool (TextBlock.top b) q.

(** What the extractor reads of a line: its text, its top and its
    height *)
Definition footprint (b : TextBlock.t) : string * Q * Q :=
  (TextBlock.text b, TextBlock.top b, TextBlock.height b).

Definition is_not (sep : ascii) (c : ascii) : bool := negb (Ascii.eqb c sep).

Definition is_line_block (block : Block.t) : bool :=
  String.eqb (Block.BlockType block) "LINE".

(** ** Sample inputs *)

Module Sample.

(** A line with text [s] whose top is the float written [t], 0.02 high *)
Definition line (s : string) (t : Q) : TextBlock.t :=
  TextBlock.mk s 99 (Binary64.round t) (Binary64.round (1 # 10))
    (Binary64.round (2 # 100)) (Binary64.round (1 # 2)).

(** Two keyword lines, each followed by the same name; no registration
    number.  Both merges of one line score 51. *)
Definition tie : list TextBlock.t :=
  [ line "NAME" (10 # 100); line "ABCD EFGH" (20 # 100);
    line "STUDENT NAME" (30 # 100); line "ABCD EFGH" (40 # 100);
    line "CARD" (50 # 100) ].

Definition tie_first : Candidate.t :=
  Candidate.mk "ABCD EFGH" 51 1 1 2 ["ABCD EFGH"].

Definition tie_second : Candidate.t :=
  Candidate.mk "ABCD EFGH" 51 1 3 4 ["ABCD EFGH"].

(** Scenario A of the specification, the name printed close under the
    keyword *)
Definition scenario_a : list TextBlock.t :=
  [ line "VIT UNIVERSITY" (10 # 100); line "NAME" (20 # 100);
    line "JOHN SMITH" (22 # 100); line "21BCE1234" (30 # 100);
    line "BLOOD GROUP O+" (40 # 100) ].

Definition scenario_a_two_lines : Candidate.t :=
  Candidate.mk "NAME JOHN SMITH" 54 2 1 3 ["NAME"; "JOHN SMITH"].

Definition scenario_a_keyword : Candidate.t :=
  Candidate.mk "JOHN SMITH" 66 1 2 3 ["JOHN SMITH"].

(** A keyword line and two lines far below it and far from each other *)
Definition scattered : list TextBlock.t :=
  [ line "NAME" (10 # 100); line "JOHN" (50 # 100);
    line "SMITH" (90 # 100) ].

Definition scattered_merge : Candidate.t :=
  Candidate.mk "JOHN SMITH" 59 2 1 3 ["JOHN"; "SMITH"].

(** Scenario B of the specification with both lines at the same height,
    in the two orders *)
Definition level_name_first : list TextBlock.t :=
  [ line "RAVI KUMAR" (30 # 100); line "21CSE5678" (30 # 100) ].

Definition level_number_first : list TextBlock.t :=
  [ line "21CSE5678" (30 # 100); line "RAVI KUMAR" (30 # 100) ].

(** Scenarios B and C of the specification *)
Definition scenario_b : list TextBlock.t :=
  [ line "RAVI KUMAR" (30 # 100); line "21CSE5678" (35 # 100) ].

Definition scenario_c : list TextBlock.t :=
  [ line "VIT VELLORE" (10 # 100); line "STUDENT CARD" (20 # 100) ].

(** A registration number written in lower case with a space and a
    hyphen, and a second number below it *)
Definition spelled_number : list TextBlock.t :=
  [ line "RAVI KUMAR" (30 # 100); line "21 bce-1234" (35 # 100);
    line "21BCE9999" (40 # 100) ].

(** Scenario B read with low confidence, further to the right and
    narrower *)
Definition scenario_b_faint : list TextBlock.t :=
  [ TextBlock.mk "RAVI KUMAR" 12 (Binary64.round (30 # 100)) (6 # 10)
      (Binary64.round (2 # 100)) (1 # 4);
    TextBlock.mk "21CSE5678" 7 (Binary64.round (35 # 100)) (6 # 10)
      (Binary64.round (2 # 100)) (1 # 4) ].

(** A name on two lines with tops 0.005 and 0.04 above the number: the
    gap computed in floats is the float 0.015, the exact difference of
    the three floats is larger *)
Definition borderline : list TextBlock.t :=
  [ line "JOHN" (5 # 1000); line "SMITH" (4 # 100);
    line "21BCE1234" (50 # 100) ].

Definition borderline_merge : Candidate.t :=
  Candidate.mk "JOHN SMITH" 52 2 0 2 ["JOHN"; "SMITH"].

End Sample.

(** * Properties *)

(** ** The stable sort *)

Section StableSort.

Context {A : Type}.
Variable first : A -> A -> bool.

Lemma insert_stable_perm (x : A) (l : list A) :
  Permutation (x :: l) (insert_stable first x l).
Proof.
  induction l as [|y r IH]; simpl.
  - apply Permutation_refl.
  - destruct (first y x).
    + eapply perm_trans; [apply perm_swap|].
      now apply perm_skip.
    + apply Permutation_refl.
Qed.

Lemma stable_sort_perm (l : list A) : Permutation l (stable_sort first l).
Proof.
  induction l as [|x r IH]; simpl.
  - constructor.
  - eapply perm_trans; [apply perm_skip, IH|].
    apply insert_stable_perm.
Qed.

Lemma stable_sort_length (l : list A) :
  List.length (stable_sort first l) = List.length l.
Proof. symmetry. apply Permutation_length, stable_sort_perm. Qed.

Lemma stable_sort_Forall (P : A -> Prop) (l : list A) :
  Forall P l -> Forall P (stable_sort first l).
Proof.
  intro H. eapply Permutation_Forall; [apply stable_sort_perm|exact H].
Qed.

Lemma hd_insert_stable (x : A) (l : list A) :
  hd_error (insert_stable first x l) =
  match l with
  | [] => Some x
  | y :: _ => if first y x then Some y else Some x
  end.
Proof. destruct l as [|y r]; simpl; [|destruct (first y x)]; reflexivity. Qed.

End StableSort.

(** Lines that already stand in vertical order are left as they are. *)
Lemma sort_by_top_in_order (l : list TextBlock.t) :
  StronglySorted top_le l -> sort_by_top l = l.
Proof.
  induction 1 as [|x r Hr IH Hx]; [reflexivity|].
  unfold sort_by_top in *. simpl. rewrite IH.
  destruct r as [|y r']; [reflexivity|]. simpl.
  inversion Hx as [|y' r'' Hxy _]; subst.
  unfold Qgtb. apply Qle_bool_iff in Hxy. unfold top_le in Hxy.
  now rewrite Hxy.
Qed.

(** ** Selector *)

Lemma sort_by_score_hd (pool : list Candidate.t) (c : Candidate.t) :
  hd_error (sort_by_score pool) = Some c ->
  exists before after,
    pool = (before ++ c :: after)%list /\
    Forall (fun x => Candidate.score x < Candidate.score c) before /\
    Forall (fun x => Candidate.score x <= Candidate.score c) after.
Proof.
  revert c. induction pool as [|x l IH]; intros c H.
  - discriminate H.
  - unfold sort_by_score in H. simpl in H.
    rewrite hd_insert_stable in H.
    fold (sort_by_score l) in H.
    destruct (sort_by_score l) as [|y r] eqn:E.
    + injection H as <-.
      assert (l = []) as ->.
      { apply Permutation_nil. rewrite <- E.
        apply Permutation_sym, stable_sort_perm. }
      exists [], []. repeat split; constructor.
    + destruct (IH y eq_refl) as (b & a & -> & Hb & Ha).
      destruct (Candidate.score y >? Candidate.score x) eqn:G;
        injection H as <-.
      * exists (x :: b), a. repeat split; [|exact Ha].
        constructor; [lia | exact Hb].
      * exists [], (b ++ y :: a)%list. repeat split; [constructor|].
        apply Forall_app. split.
        -- eapply Forall_impl; [|exact Hb]. simpl. intros; lia.
        -- constructor; [lia|].
           eapply Forall_impl; [|exact Ha]. simpl. intros; lia.
Qed.

Lemma sort_by_score_nonempty (pool : list Candidate.t) :
  pool <> [] -> exists c, hd_error (sort_by_score pool) = Some c.
Proof.
  intro H. destruct (sort_by_score pool) as [|c r] eqn:E.
  - exfalso. apply H. apply Permutation_nil. rewrite <- E.
    apply Permutation_sym, stable_sort_perm.
  - now exists c.
Qed.

Lemma extract_top_candidate (text_blocks : list TextBlock.t) :
  Debug.topCandidate (Result.debug (extract_vit_id_multiline text_blocks)) =
  hd_error (sort_by_score (name_candidates text_blocks)).
Proof.
  unfold extract_vit_id_multiline, name_candidates.
  destruct (find_rg (lines_of text_blocks)) as [n i]. reflexivity.
Qed.

Lemma extract_name (text_blocks : list TextBlock.t) :
  Result.name (extract_vit_id_multiline text_blocks) =
  match hd_error (sort_by_score (name_candidates text_blocks)) with
  | Some best => clean_and_correct_name (Candidate.name best)
  | None => "Unknown"
  end.
Proof.
  unfold extract_vit_id_multiline, name_candidates.
  destruct (find_rg (lines_of text_blocks)) as [n i]. simpl.
  now destruct (sort_by_score _).
Qed.

Lemma extract_anchor (text_blocks : list TextBlock.t) :
  (Result.rgNumber (extract_vit_id_multiline text_blocks),
   Debug.rgFoundAt (Result.debug (extract_vit_id_multiline text_blocks)))
  = find_rg (lines_of text_blocks).
Proof.
  unfold extract_vit_id_multiline.
  destruct (find_rg (lines_of text_blocks)) as [n i]. reflexivity.
Qed.

(** A candidate appended last is selected when it beats all the others. *)
Lemma sort_by_score_last_wins (pool : list Candidate.t) (k : Candidate.t) :
  Forall (fun c => Candidate.score c < Candidate.score k) pool ->
  hd_error (sort_by_score (pool ++ [k])%list) = Some k.
Proof.
  induction 1 as [|x l Hx Hl IH]; [reflexivity|].
  unfold sort_by_score in *. simpl. rewrite hd_insert_stable.
  destruct (stable_sort _ (l ++ [k])%list) as [|y r]; [discriminate IH|].
  injection IH as ->.
  destruct (Z.gtb_spec (Candidate.score k) (Candidate.score x));
    [reflexivity | lia].
Qed.

(** C6. The selected candidate is the earliest-generated one among those
    of highest score: when the extractor reports [best] as top candidate,
    the pool in generation order is [before ++ best :: after], every
    candidate generated before it scores strictly less and every one
    generated after it scores at most as much; so of two candidates with
    the same (highest) score the earlier one wins, and the name returned
    is the cleaned text of that candidate. *)
Theorem selector_stable_tie_break (text_blocks : list TextBlock.t)
    (best : Candidate.t) :
  Debug.topCandidate (Result.debug (extract_vit_id_multiline text_blocks))
    = Some best ->
  (exists before after,
     name_candidates text_blocks = (before ++ best :: after)%list /\
     Forall (fun x => Candidate.score x < Candidate.score best) before /\
     Forall (fun x => Candidate.score x <= Candidate.score best) after) /\
  Result.name (extract_vit_id_multiline text_blocks)
    = clean_and_correct_name (Candidate.name best).
Proof.
  intro H. rewrite extract_top_candidate in H. split.
  - now apply sort_by_score_hd.
  - rewrite extract_name, H. reflexivity.
Qed.

Lemma selector_stable_tie_break_witness :
  (exists before after,
     name_candidates Sample.tie
       = (before ++ Sample.tie_first :: after)%list /\
     Forall (fun x => Candidate.score x < Candidate.score Sample.tie_first)
       before /\
     Forall (fun x => Candidate.score x <= Candidate.score Sample.tie_first)
       after) /\
  Result.name (extract_vit_id_multiline Sample.tie)
    = clean_and_correct_name (Candidate.name Sample.tie_first).
Proof.
  apply (selector_stable_tie_break Sample.tie Sample.tie_first).
  vm_compute. reflexivity.
Defined.

Example tie_pool :
  name_candidates Sample.tie = [Sample.tie_first; Sample.tie_second].
Proof. vm_compute. reflexivity. Qed.

(** ** CandidateGenerator: what each pass appends *)

Section GeneratorFacts.

Variable text_blocks : list TextBlock.t.
Variable lines : list string.
Variable rg_index : Z.

(** A candidate of step 2 is the merge of an unbroken span that ends at
    or above the anchor, passed the proximity test when it has more than
    one line, and carries the score the scorer gave it. *)
Lemma above_anchor_starts_inv (search_end num_lines : Z) (starts : list Z)
    (c : Candidate.t) :
  In c (above_anchor_starts text_blocks lines rg_index search_end num_lines
          starts) ->
  exists start_idx,
    In start_idx starts /\
    start_idx + num_lines <= search_end /\
    (num_lines > 1 ->
     are_blocks_vertically_close
       (slice text_blocks start_idx (start_idx + num_lines)) = true) /\
    let merged_lines := slice lines start_idx (start_idx + num_lines) in
    let merged_text := Str.join " " merged_lines in
    let score :=
      score_name_candidate_multiline merged_text merged_lines start_idx
        rg_index num_lines false in
    score > 0 /\
    c = Candidate.mk merged_text score num_lines start_idx
          (start_idx + num_lines) merged_lines.
Proof.
  induction starts as [|s rest IH]; simpl; [tauto|].
  destruct (s + num_lines >? search_end) eqn:B; [simpl; tauto|].
  assert (forall P : Z -> Prop, (exists x, In x rest /\ P x) ->
            exists x, (s = x \/ In x rest) /\ P x) as weaken.
  { intros P (x & Hx & HP). exists x. auto. }
  destruct ((num_lines >? 1) &&
            negb (are_blocks_vertically_close
                    (slice text_blocks s (s + num_lines)))) eqn:G.
  - intro H. apply weaken, IH, H.
  - destruct (score_name_candidate_multiline _ _ _ _ _ _ >? 0) eqn:P.
    + intros [<- | H]; [|apply weaken, IH, H].
      exists s. split; [now left|]. split; [lia|]. split.
      * intro N. apply andb_false_iff in G. destruct G as [G | G]; [lia|].
        now apply negb_false_iff in G.
      * simpl. split; [lia | reflexivity].
    + intro H. apply weaken, IH, H.
Qed.

Lemma above_anchor_inv (c : Candidate.t) :
  In c (above_anchor text_blocks lines rg_index) ->
  exists num_lines start_idx,
    In num_lines [1; 2; 3] /\
    Z.max 0 (rg_index - 6) <= start_idx /\
    start_idx + num_lines <= rg_index /\
    (num_lines > 1 ->
     are_blocks_vertically_close
       (slice text_blocks start_idx (start_idx + num_lines)) = true) /\
    let merged_lines := slice lines start_idx (start_idx + num_lines) in
    let merged_text := Str.join " " merged_lines in
    let score :=
      score_name_candidate_multiline merged_text merged_lines start_idx
        rg_index num_lines false in
    score > 0 /\
    c = Candidate.mk merged_text score num_lines start_idx
          (start_idx + num_lines) merged_lines.
Proof.
  unfold above_anchor. destruct (rg_index >? 0); [|simpl; tauto].
  intro H. apply in_flat_map in H. destruct H as (n & Hn & H).
  apply above_anchor_starts_inv in H.
  destruct H as (s & Hs & Hle & Hclose & Hc).
  exists n, s. repeat split; try assumption.
  - unfold range in Hs. apply in_map_iff in Hs.
    destruct Hs as (k & <- & _). lia.
  - apply Hc.
  - apply Hc.
Qed.

(** A candidate of step 3 is the merge of the lines that follow a keyword
    line; its score is the scorer's plus 10. *)
Lemma after_keyword_spans_inv (i : Z) (spans : list Z) (c : Candidate.t) :
  In c (after_keyword_spans lines rg_index i spans) ->
  exists num_lines,
    In num_lines spans /\
    i + num_lines < Z.of_nat (List.length lines) /\
    let start_idx := i + 1 in
    let merged_lines := slice lines start_idx (start_idx + num_lines) in
    let merged_text := Str.join " " merged_lines in
    let score :=
      score_name_candidate_multiline merged_text merged_lines start_idx
        rg_index num_lines true in
    score > 0 /\
    c = Candidate.mk merged_text (score + 10) num_lines start_idx
          (start_idx + num_lines) merged_lines.
Proof.
  induction spans as [|n rest IH]; simpl; [tauto|].
  assert (forall P : Z -> Prop, (exists x, In x rest /\ P x) ->
            exists x, (n = x \/ In x rest) /\ P x) as weaken.
  { intros P (x & Hx & HP). exists x. auto. }
  destruct (i + n <? Z.of_nat (List.length lines)) eqn:B.
  - destruct (i + 1 + n >? Z.of_nat (List.length lines)) eqn:B2;
      [simpl; tauto|].
    destruct (score_name_candidate_multiline _ _ _ _ _ _ >? 0) eqn:P.
    + intros [<- | H]; [|apply weaken, IH, H].
      exists n. split; [now left|]. split; [lia|].
      simpl. split; [lia | reflexivity].
    + intro H. apply weaken, IH, H.
  - intro H. apply weaken, IH, H.
Qed.

Lemma in_enumerate_from {A : Type} (l : list A) (k i : Z) (x : A) :
  In (i, x) (enumerate_from k l) ->
  k <= i /\ nth_error l (Z.to_nat (i - k)) = Some x.
Proof.
  revert k. induction l as [|y r IH]; intros k; simpl; [tauto|].
  intros [E | H].
  - injection E as <- <-. split; [lia|]. now rewrite Z.sub_diag.
  - apply IH in H. destruct H as [Hk Hn]. split; [lia|].
    replace (Z.to_nat (i - k)) with (S (Z.to_nat (i - (k + 1)))) by lia.
    exact Hn.
Qed.

Lemma after_keyword_inv (c : Candidate.t) :
  In c (after_keyword lines rg_index) ->
  exists i line num_lines,
    0 <= i /\ nth_error lines (Z.to_nat i) = Some line /\
    Str.contains "NAME" (Str.upper line) = true /\
    In num_lines [1; 2; 3] /\
    i + num_lines < Z.of_nat (List.length lines) /\
    let start_idx := i + 1 in
    let merged_lines := slice lines start_idx (start_idx + num_lines) in
    let merged_text := Str.join " " merged_lines in
    let score :=
      score_name_candidate_multiline merged_text merged_lines start_idx
        rg_index num_lines true in
    score > 0 /\
    c = Candidate.mk merged_text (score + 10) num_lines start_idx
          (start_idx + num_lines) merged_lines.
Proof.
  unfold after_keyword. intro H. apply in_flat_map in H.
  destruct H as ([i line] & Hin & H).
  apply in_enumerate_from in Hin. destruct Hin as [Hi Hn].
  rewrite Z.sub_0_r in Hn.
  destruct (Str.contains "NAME" (Str.upper line)) eqn:K; [|destruct H].
  apply after_keyword_spans_inv in H. destruct H as (n & Hn3 & Hlt & Hc).
  exists i, line, n. repeat split; try assumption; apply Hc.
Qed.

End GeneratorFacts.

(** ** CandidateScorer: the keyword signal *)

Lemma fold_line_bonus_shift (raw_lines : list string) (a k : Z) :
  fold_left line_bonus raw_lines (a + k)
  = fold_left line_bonus raw_lines a + k.
Proof.
  revert a. induction raw_lines as [|l r IH]; intro a; simpl; [reflexivity|].
  unfold line_bonus at 2 4.
  destruct (3 <=? Str.len (Str.strip l)); [|apply IH].
  replace (a + k + 2) with (a + 2 + k) by lia. apply IH.
Qed.

Lemma fold_line_bonus_ge (raw_lines : list string) (a : Z) :
  a <= fold_left line_bonus raw_lines a.
Proof.
  revert a. induction raw_lines as [|l r IH]; intro a; simpl; [lia|].
  unfold line_bonus at 2.
  destruct (3 <=? Str.len (Str.strip l)); [|apply IH].
  specialize (IH (a + 2)). lia.
Qed.

Lemma positive_indicators_keyword (text : string) (raw_lines : list string)
    (start_idx rg_index num_lines : Z) :
  positive_indicators text raw_lines start_idx rg_index num_lines true
  = positive_indicators text raw_lines start_idx rg_index num_lines false
    + 12
  /\ 5 <= positive_indicators text raw_lines start_idx rg_index num_lines
            false.
Proof.
  unfold positive_indicators.
  match goal with
  | |- context [fold_left line_bonus raw_lines (?x + 12)] =>
      remember x as base eqn:E
  end.
  assert (5 <= base) as Hbase.
  { subst base.
    repeat match goal with
           | |- context [if ?b then _ else _] => destruct b
           end; lia. }
  clear E. cbv iota. rewrite fold_line_bonus_shift.
  pose proof (fold_line_bonus_ge raw_lines base). lia.
Qed.

(** With the keyword flag the scorer gives 12 more, unless a disqualifier
    makes both scores 0. *)
Lemma scorer_keyword_signal (text : string) (raw_lines : list string)
    (start_idx rg_index num_lines : Z) :
  let plain :=
    score_name_candidate_multiline text raw_lines start_idx rg_index
      num_lines false in
  score_name_candidate_multiline text raw_lines start_idx rg_index
    num_lines true
  = if plain =? 0 then 0 else plain + 12.
Proof.
  unfold score_name_candidate_multiline.
  destruct (String.eqb text "" || (Str.len (Str.strip text) <? 3));
    [reflexivity|].
  destruct (existsb _ skip_keywords); [reflexivity|].
  destruct (Re.search _ _); [reflexivity|].
  destruct (5 * _ >? _); [reflexivity|].
  destruct (positive_indicators_keyword (Str.strip text) raw_lines start_idx
              rg_index num_lines) as [E G].
  cbv zeta. rewrite E.
  destruct (Z.eqb_spec
              (positive_indicators (Str.strip text) raw_lines start_idx
                 rg_index num_lines false) 0); [lia | reflexivity].
Qed.

(** ** Scores in the pool *)

(** C1 (as the program has it). A candidate of the keyword pass enters
    the pool with the scorer's output for its merged text plus 10; the
    scorer's output is positive and is itself 12 above what the scorer
    gives the same span without the keyword flag.  Being after a keyword
    line is worth 22 in the pool. *)
Theorem keyword_pass_score (lines : list string) (rg_index : Z)
    (c : Candidate.t) :
  In c (after_keyword lines rg_index) ->
  let scored flag :=
    score_name_candidate_multiline (Candidate.name c)
      (Candidate.raw_lines c) (Candidate.start_idx c) rg_index
      (Candidate.lines c) flag in
  Candidate.score c = scored true + 10 /\
  scored true > 0 /\
  scored true = scored false + 12.
Proof.
  intro H. apply after_keyword_inv in H.
  destruct H as (i & line & n & _ & _ & _ & _ & _ & Hpos & ->).
  simpl. split; [reflexivity|]. split; [exact Hpos|].
  pose proof (scorer_keyword_signal
                (Str.join " " (slice lines (i + 1) (i + 1 + n)))
                (slice lines (i + 1) (i + 1 + n)) (i + 1) rg_index n) as K.
  cbv zeta in K.
  destruct (Z.eqb_spec
              (score_name_candidate_multiline
                 (Str.join " " (slice lines (i + 1) (i + 1 + n)))
                 (slice lines (i + 1) (i + 1 + n)) (i + 1) rg_index n false)
              0) as [Z0 | NZ].
  - rewrite K in Hpos. lia.
  - exact K.
Qed.

Lemma keyword_pass_score_witness :
  let c := Sample.scenario_a_keyword in
  let scored flag :=
    score_name_candidate_multiline (Candidate.name c)
      (Candidate.raw_lines c) (Candidate.start_idx c) 3
      (Candidate.lines c) flag in
  Candidate.score c = scored true + 10 /\
  scored true > 0 /\
  scored true = scored false + 12.
Proof.
  apply (keyword_pass_score (lines_of Sample.scenario_a) 3
           Sample.scenario_a_keyword).
  vm_compute. auto.
Defined.

(** C1 as stated fails: in scenario A the keyword pass puts "JOHN SMITH"
    into the pool with 66, while the scorer, keyword signal included,
    gives that merge 56. *)
Lemma keyword_pass_score_exceeds_scorer :
  let lines := lines_of Sample.scenario_a in
  let rg_index := snd (find_rg lines) in
  let c := Sample.scenario_a_keyword in
  In c (after_keyword lines rg_index) /\
  In c (name_candidates Sample.scenario_a) /\
  Candidate.score c = 66 /\
  score_name_candidate_multiline (Candidate.name c) (Candidate.raw_lines c)
    (Candidate.start_idx c) rg_index (Candidate.lines c) true = 56 /\
  Candidate.score c <>
  score_name_candidate_multiline (Candidate.name c) (Candidate.raw_lines c)
    (Candidate.start_idx c) rg_index (Candidate.lines c) true.
Proof. vm_compute. intuition discriminate. Qed.

(** C5. Every candidate of the pool has a positive score, before and
    after the sort; the number of candidates reported is the size of that
    pool and the top candidate reported, when there is one, is one of
    its members. *)
Theorem pool_scores_positive (text_blocks : list TextBlock.t) :
  let result := extract_vit_id_multiline text_blocks in
  Forall (fun c => Candidate.score c > 0) (name_candidates text_blocks) /\
  Forall (fun c => Candidate.score c > 0)
    (sort_by_score (name_candidates text_blocks)) /\
  Debug.candidatesFound (Result.debug result)
    = Z.of_nat (List.length (name_candidates text_blocks)) /\
  forall top,
    Debug.topCandidate (Result.debug result) = Some top ->
    In top (name_candidates text_blocks) /\ Candidate.score top > 0.
Proof.
  assert (Forall (fun c => Candidate.score c > 0)
            (name_candidates text_blocks)) as Hpool.
  { unfold name_candidates. apply Forall_app. split; apply Forall_forall;
      intros c Hc.
    - apply above_anchor_inv in Hc.
      destruct Hc as (n & s & _ & _ & _ & _ & Hpos & ->). exact Hpos.
    - apply after_keyword_inv in Hc.
      destruct Hc as (i & line & n & _ & _ & _ & _ & _ & Hpos & ->).
      simpl. lia. }
  cbv zeta. split; [exact Hpool|]. split.
  { now apply stable_sort_Forall. }
  split.
  { unfold extract_vit_id_multiline, name_candidates.
    destruct (find_rg (lines_of text_blocks)) as [n i]. simpl.
    unfold sort_by_score. now rewrite stable_sort_length. }
  intros top Htop. rewrite extract_top_candidate in Htop.
  assert (In top (name_candidates text_blocks)) as Hin.
  { apply (Permutation_in top
             (Permutation_sym
                (stable_sort_perm
                   (fun y x => Candidate.score y >? Candidate.score x)
                   (name_candidates text_blocks)))).
    fold (sort_by_score (name_candidates text_blocks)).
    destruct (sort_by_score (name_candidates text_blocks));
      [discriminate|].
    injection Htop as ->. now left. }
  split; [exact Hin|].
  rewrite Forall_forall in Hpool. now apply Hpool.
Qed.

(** ** ProximityFilter gate *)

Lemma close_pair (a b : TextBlock.t) :
  are_blocks_vertically_close [a; b] = true ->
  (gap a b <= default_max_gap)%Q.
Proof.
  unfold are_blocks_vertically_close.
  change (are_blocks_vertically_close_gap default_max_gap [a; b])
    with (if Qgtb (gap a b) default_max_gap then false else true).
  unfold Qgtb. destruct (Qle_bool _ _) eqn:E; [|discriminate].
  intros _. now apply Qle_bool_iff.
Qed.

(** C2 (as the program has it). A candidate of the anchor-relative pass
    that spans more than one line passed the proximity test: its blocks
    are vertically close, and when it spans two lines the gap between
    them, computed in floats as the program computes it (the top of the
    second minus the rounded sum of top and height of the first, rounded),
    is at most the float 0.015.  The keyword pass applies no such test. *)
Theorem above_anchor_spans_are_close (text_blocks : list TextBlock.t)
    (lines : list string) (rg_index : Z) (c : Candidate.t) :
  In c (above_anchor text_blocks lines rg_index) ->
  Candidate.lines c > 1 ->
  let span :=
    slice text_blocks (Candidate.start_idx c) (Candidate.end_idx c) in
  are_blocks_vertically_close span = true /\
  forall a b, span = [a; b] -> (gap a b <= default_max_gap)%Q.
Proof.
  intros H Hmulti. apply above_anchor_inv in H.
  destruct H as (n & s & _ & _ & _ & Hclose & _ & ->).
  cbn [Candidate.lines Candidate.start_idx Candidate.end_idx] in *.
  specialize (Hclose Hmulti). split; [exact Hclose|].
  intros a b E. rewrite E in Hclose. now apply close_pair.
Qed.

Lemma above_anchor_spans_are_close_witness :
  let span := slice Sample.borderline 0 2 in
  are_blocks_vertically_close span = true /\
  forall a b, span = [a; b] -> (gap a b <= default_max_gap)%Q.
Proof.
  apply (above_anchor_spans_are_close Sample.borderline
           (lines_of Sample.borderline) 2 Sample.borderline_merge).
  - vm_compute. auto.
  - reflexivity.
Defined.

(** C2 as stated fails: the keyword pass merges "JOHN" and "SMITH", 0.38
    of the page apart, and the merge is in the pool. *)
Lemma keyword_pass_ignores_gap :
  let c := Sample.scattered_merge in
  In c (name_candidates Sample.scattered) /\
  Candidate.lines c = 2 /\
  slice Sample.scattered (Candidate.start_idx c) (Candidate.end_idx c)
    = [Sample.line "JOHN" (50 # 100); Sample.line "SMITH" (90 # 100)] /\
  (default_max_gap
   < gap (Sample.line "JOHN" (50 # 100)) (Sample.line "SMITH" (90 # 100)))%Q
  /\
  are_blocks_vertically_close
    (slice Sample.scattered (Candidate.start_idx c) (Candidate.end_idx c))
    = false.
Proof. vm_compute. intuition. Qed.

(** The test is made on rounded numbers: with tops 0.005 and 0.04 and
    height 0.02 the computed gap is the float 0.015 and the two lines are
    merged, although the exact difference of the three floats exceeds
    the float 0.015. *)
Example borderline_gap_passes :
  let a := Sample.line "JOHN" (5 # 1000) in
  let b := Sample.line "SMITH" (4 # 100) in
  (gap a b == default_max_gap)%Q /\
  (default_max_gap
   < TextBlock.top b - (TextBlock.top a + TextBlock.height a))%Q /\
  are_blocks_vertically_close [a; b] = true /\
  In Sample.borderline_merge (name_candidates Sample.borderline) /\
  Result.name (extract_vit_id_multiline Sample.borderline) = "John Smith".
Proof. vm_compute. intuition. Qed.

(** ** ResultAssembler *)

(** C10. The extractor returns, and its success flag is [True], on every
    list of lines; on the empty list it returns both sentinels, and the
    flag is [True] also whenever both sentinels come back. *)
Theorem success_is_constant :
  (forall text_blocks,
     Result.success (extract_vit_id_multiline text_blocks) = true) /\
  extract_vit_id_multiline []
    = Result.mk "Unknown" "Not Found" true (Debug.mk 0 (-1) 0 None).
Proof.
  split; [|reflexivity].
  intro text_blocks. unfold extract_vit_id_multiline.
  destruct (find_rg (lines_of text_blocks)) as [n i]. reflexivity.
Qed.

(** ** Scenario A *)

(** C3. Whatever the geometry of the five lines "VIT UNIVERSITY", "NAME",
    "JOHN SMITH", "21BCE1234", "BLOOD GROUP O+", the anchor is line 3 with
    identifier "21BCE1234", the best candidate of the keyword pass and of
    the whole pool is "JOHN SMITH" (lines 2..3, 66 points), and the result
    is name "John Smith", identifier "21BCE1234"; when the geometry puts
    the lines in this vertical order, the sort of [lambda_handler] keeps
    them so and the pipeline returns that same result. *)
Theorem scenario_a_extraction (text_blocks : list TextBlock.t) :
  List.map TextBlock.text text_blocks
    = ["VIT UNIVERSITY"; "NAME"; "JOHN SMITH"; "21BCE1234";
       "BLOOD GROUP O+"] ->
  let result := extract_vit_id_multiline text_blocks in
  find_rg (lines_of text_blocks) = ("21BCE1234", 3) /\
  hd_error (sort_by_score (after_keyword (lines_of text_blocks) 3))
    = Some Sample.scenario_a_keyword /\
  Debug.topCandidate (Result.debug result)
    = Some Sample.scenario_a_keyword /\
  Debug.rgFoundAt (Result.debug result) = 3 /\
  Result.rgNumber result = "21BCE1234" /\
  Result.name result = "John Smith" /\
  (StronglySorted top_le text_blocks ->
   process_blocks text_blocks = result).
Proof.
  intro H.
  assert (lines_of text_blocks
          = ["VIT UNIVERSITY"; "NAME"; "JOHN SMITH"; "21BCE1234";
             "BLOOD GROUP O+"]) as EL.
  { unfold lines_of. rewrite <- (map_map TextBlock.text Str.strip), H.
    reflexivity. }
  assert (find_rg (lines_of text_blocks) = ("21BCE1234", 3)) as ER.
  { rewrite EL. vm_compute. reflexivity. }
  assert (after_keyword (lines_of text_blocks) 3
          = [Sample.scenario_a_keyword]) as EK.
  { rewrite EL. vm_compute. reflexivity. }
  assert (Forall (fun c => Candidate.score c < 66)
            (above_anchor text_blocks (lines_of text_blocks) 3)) as HA.
  { apply Forall_forall. intros c Hc. apply above_anchor_inv in Hc.
    destruct Hc as (n & s & Hn & Hlo & Hhi & _ & _ & ->).
    rewrite EL. simpl in Hn, Hlo |- *.
    assert (s = 0 \/ s = 1 \/ s = 2) as Hs by lia.
    destruct Hn as [<- | [<- | [<- | []]]];
      destruct Hs as [-> | [-> | ->]]; try lia; vm_compute; reflexivity. }
  assert (hd_error (sort_by_score (name_candidates text_blocks))
          = Some Sample.scenario_a_keyword) as ET.
  { unfold name_candidates. rewrite ER. simpl snd. rewrite EK.
    now apply sort_by_score_last_wins. }
  pose proof (extract_anchor text_blocks) as EA. rewrite ER in EA.
  injection EA as E1 E2.
  cbv zeta. rewrite extract_top_candidate, extract_name, ET, EK, E1, E2.
  refine (conj ER (conj _ (conj _ (conj _ (conj _ (conj _ _))))));
    try reflexivity.
  intro S. unfold process_blocks. now rewrite sort_by_top_in_order.
Qed.

Lemma scenario_a_extraction_witness :
  let result := extract_vit_id_multiline Sample.scenario_a in
  find_rg (lines_of Sample.scenario_a) = ("21BCE1234", 3) /\
  hd_error (sort_by_score (after_keyword (lines_of Sample.scenario_a) 3))
    = Some Sample.scenario_a_keyword /\
  Debug.topCandidate (Result.debug result)
    = Some Sample.scenario_a_keyword /\
  Debug.rgFoundAt (Result.debug result) = 3 /\
  Result.rgNumber result = "21BCE1234" /\
  Result.name result = "John Smith" /\
  (StronglySorted top_le Sample.scenario_a ->
   process_blocks Sample.scenario_a = result).
Proof.
  apply (scenario_a_extraction Sample.scenario_a). reflexivity.
Defined.

(** ** Strings: facts used below *)

Lemma forallb_filter (p : ascii -> bool) (s : string) :
  Str.forallb p (Str.filter p s) = true.
Proof.
  induction s as [|c r IH]; simpl; [reflexivity|].
  destruct (p c) eqn:E; simpl; [rewrite E|]; exact IH.
Qed.

Lemma forallb_impl (p q : ascii -> bool) (s : string) :
  (forall c, p c = true -> q c = true) ->
  Str.forallb p s = true -> Str.forallb q s = true.
Proof.
  intro H. induction s as [|c r IH]; simpl; [reflexivity|].
  intro G. apply andb_true_iff in G. destruct G as [G1 G2].
  now rewrite (H c G1), IH.
Qed.

Lemma forallb_append (p : ascii -> bool) (s t : string) :
  Str.forallb p (s ++ t) = Str.forallb p s && Str.forallb p t.
Proof.
  induction s as [|c r IH]; simpl; [reflexivity|].
  now rewrite IH, andb_assoc.
Qed.

Lemma filter_id (p : ascii -> bool) (s : string) :
  Str.forallb p s = true -> Str.filter p s = s.
Proof.
  induction s as [|c r IH]; simpl; [reflexivity|].
  intro G. apply andb_true_iff in G. destruct G as [G1 G2].
  now rewrite G1, IH.
Qed.

Lemma map_id_on (f : ascii -> ascii) (p : ascii -> bool) (s : string) :
  (forall c, p c = true -> f c = c) ->
  Str.forallb p s = true -> Str.map f s = s.
Proof.
  intro H. induction s as [|c r IH]; simpl; [reflexivity|].
  intro G. apply andb_true_iff in G. destruct G as [G1 G2].
  now rewrite (H c G1), IH.
Qed.

(** Every token of [s.split()] is made of characters of [s]. *)
Lemma split_from_forallb (p : ascii -> bool) (s tok : string) :
  Str.forallb p tok = true -> Str.forallb p s = true ->
  Forall (fun w => Str.forallb p w = true) (Str.split_from tok s).
Proof.
  revert tok. induction s as [|c r IH]; intros tok Ht Hs; simpl.
  - destruct (String.eqb tok ""); auto.
  - simpl in Hs. apply andb_true_iff in Hs. destruct Hs as [Hc Hr].
    destruct (Char.isspace c).
    + destruct (String.eqb tok ""); [|constructor; [exact Ht|]];
        now apply IH.
    + apply IH; [|exact Hr].
      rewrite forallb_append, Ht. simpl. now rewrite Hc.
Qed.

Lemma split_forallb (p : ascii -> bool) (s : string) :
  Str.forallb p s = true ->
  Forall (fun w => Str.forallb p w = true) (Str.split s).
Proof. now apply split_from_forallb. Qed.

(** ** Per-token correction never sees a digit *)

Lemma name_char_not_digit (c : ascii) :
  name_char c = true -> not_digit c = true.
Proof.
  destruct c as [[] [] [] [] [] [] [] []]; vm_compute; congruence.
Qed.

Lemma name_words_digit_free (name : string) :
  Forall (fun w => Str.forallb not_digit w = true) (name_words name).
Proof.
  unfold name_words.
  apply Forall_forall. intros w Hw. apply filter_In in Hw.
  destruct Hw as [Hw _]. revert w Hw. apply Forall_forall.
  apply split_forallb. unfold remove_special.
  eapply forallb_impl; [apply name_char_not_digit | apply forallb_filter].
Qed.

Lemma replace_digit_id (wrong right' : ascii) (w : string) :
  Char.isdigit wrong = true ->
  Str.forallb not_digit w = true ->
  Str.replace_char wrong right' w = w.
Proof.
  intros Hd. unfold Str.replace_char. apply map_id_on.
  intros c Hc. destruct (Ascii.eqb_spec c wrong) as [-> | _]; [|reflexivity].
  unfold not_digit in Hc. rewrite Hd in Hc. discriminate Hc.
Qed.

Lemma apply_replacements_id (w : string) :
  Str.forallb not_digit w = true -> apply_replacements w = w.
Proof.
  intro H. cbv [apply_replacements replacements fold_left].
  repeat match goal with
         | |- context [Str.replace_char ?a ?b w] =>
             rewrite (replace_digit_id a b w eq_refl H)
         | |- context [if ?b then w else w] => destruct b
         end;
    reflexivity.
Qed.

Lemma fix_ocr_errors_digit_free (w : string) :
  Str.forallb not_digit w = true ->
  fix_ocr_errors w = fix_ocr_errors_no_digits w.
Proof.
  intro H. unfold fix_ocr_errors, fix_ocr_errors_no_digits.
  now rewrite apply_replacements_id.
Qed.

(** C9. Every token that [clean_and_correct_name] hands to
    [fix_ocr_errors] is free of digits and the substitution loop leaves it
    as it is; hence the normalizer equals, on every input, the normalizer
    built on [fix_ocr_errors] without that loop. *)
Theorem digit_substitution_unreachable (name : string) :
  Forall (fun w => Str.forallb not_digit w = true /\ apply_replacements w = w)
    (name_words name) /\
  clean_and_correct_name name
  = clean_and_correct_name_with fix_ocr_errors_no_digits name.
Proof.
  pose proof (name_words_digit_free name) as H. split.
  - eapply Forall_impl; [|exact H]. simpl. intros w Hw.
    split; [exact Hw | now apply apply_replacements_id].
  - unfold clean_and_correct_name, clean_and_correct_name_with.
    cbv zeta.
    rewrite (map_ext_in fix_ocr_errors fix_ocr_errors_no_digits
               (name_words name)); [reflexivity|].
    intros w Hw. apply fix_ocr_errors_digit_free.
    rewrite Forall_forall in H. now apply H.
Qed.

(** ** LineIndex: the sort by [top] *)

Lemma insert_by_top_sorted (x : TextBlock.t) (l : list TextBlock.t) :
  StronglySorted top_le l ->
  StronglySorted top_le
    (insert_stable (fun y x => Qgtb (TextBlock.top x) (TextBlock.top y)) x l).
Proof.
  induction 1 as [|y r Hr IH Hy]; simpl.
  - repeat constructor.
  - unfold Qgtb at 1.
    destruct (Qle_bool (TextBlock.top x) (TextBlock.top y)) eqn:E; simpl.
    + apply Qle_bool_iff in E. constructor.
      * now constructor.
      * constructor; [exact E|].
        eapply Forall_impl; [|exact Hy]. intros z Hz.
        unfold top_le in *. now apply Qle_trans with (TextBlock.top y).
    + constructor; [exact IH|].
      eapply Permutation_Forall; [apply insert_stable_perm|].
      constructor; [|exact Hy].
      unfold top_le. apply Qlt_le_weak, Qnot_le_lt. intro G.
      apply Qle_bool_iff in G. congruence.
Qed.

Lemma sort_by_top_sorted (l : list TextBlock.t) :
  StronglySorted top_le (sort_by_top l).
Proof.
  induction l as [|x r IH]; [constructor|].
  apply insert_by_top_sorted, IH.
Qed.

(** Two sorted arrangements of the same lines are equal when lines at the
    same height are the same line. *)
Lemma sorted_arrangement_unique (l1 l2 : list TextBlock.t) :
  StronglySorted top_le l1 ->
  StronglySorted top_le l2 ->
  Permutation l1 l2 ->
  (forall a b, In a l1 -> In b l1 ->
     (TextBlock.top a == TextBlock.top b)%Q -> a = b) ->
  l1 = l2.
Proof.
  intros S1. revert l2.
  induction S1 as [|a r1 Hr1 IH Ha]; intros l2 S2 P D.
  - symmetry. now apply Permutation_nil.
  - destruct l2 as [|b r2].
    { apply Permutation_sym, Permutation_nil in P. discriminate P. }
    inversion S2 as [|b' r2' Hr2 Hb]; subst.
    assert (In a (b :: r2)) as Ia
      by (eapply Permutation_in; [exact P | now left]).
    assert (In b (a :: r1)) as Ib
      by (eapply Permutation_in; [apply Permutation_sym, P | now left]).
    assert (top_le b a) as Lba.
    { destruct Ia as [<- | Ia]; [apply Qle_refl|].
      rewrite Forall_forall in Hb. now apply Hb. }
    assert (top_le a b) as Lab.
    { destruct Ib as [<- | Ib]; [apply Qle_refl|].
      rewrite Forall_forall in Ha. now apply Ha. }
    assert (a = b) as ->.
    { apply D; [now left | exact Ib | now apply Qle_antisym]. }
    f_equal. apply IH; [exact Hr2 | eapply Permutation_cons_inv, P|].
    intros x y Hx Hy. apply D; now right.
Qed.

(** C7 (as the program has it). Two orderings of the same line records
    in which lines with equal [top] are equal records are sorted into
    the same working list, so the pipeline gives the same result (name,
    identifier, debug trace) and the same candidate pool. *)
Theorem pipeline_order_independent (blocks1 blocks2 : list TextBlock.t) :
  Permutation blocks1 blocks2 ->
  (forall a b, In a blocks1 -> In b blocks1 ->
     (TextBlock.top a == TextBlock.top b)%Q -> a = b) ->
  sort_by_top blocks1 = sort_by_top blocks2 /\
  process_blocks blocks1 = process_blocks blocks2 /\
  name_candidates (sort_by_top blocks1)
    = name_candidates (sort_by_top blocks2).
Proof.
  intros P D.
  assert (sort_by_top blocks1 = sort_by_top blocks2) as E.
  { apply sorted_arrangement_unique; try apply sort_by_top_sorted.
    - eapply perm_trans; [apply Permutation_sym, stable_sort_perm|].
      eapply perm_trans; [exact P | apply stable_sort_perm].
    - intros a b Ia Ib. apply D.
      + eapply Permutation_in; [apply Permutation_sym, stable_sort_perm|].
        exact Ia.
      + eapply Permutation_in; [apply Permutation_sym, stable_sort_perm|].
        exact Ib. }
  unfold process_blocks. rewrite E. auto.
Qed.

Lemma pipeline_order_independent_witness :
  sort_by_top Sample.scenario_a = sort_by_top (rev Sample.scenario_a) /\
  process_blocks Sample.scenario_a
    = process_blocks (rev Sample.scenario_a) /\
  name_candidates (sort_by_top Sample.scenario_a)
    = name_candidates (sort_by_top (rev Sample.scenario_a)).
Proof.
  apply (pipeline_order_independent Sample.scenario_a
           (rev Sample.scenario_a)).
  - apply Permutation_rev.
  - intros a b Ia Ib E. simpl in Ia, Ib.
    repeat match goal with
           | H : _ \/ _ |- _ => destruct H as [H | H]
           | H : False |- _ => destruct H
           end;
      subst a b; try reflexivity; vm_compute in E; discriminate E.
Defined.

(** C7 as stated fails: two lines at the same height keep the order the
    caller gave them, and the two orders give different results. *)
Lemma level_lines_order_matters :
  Permutation Sample.level_name_first Sample.level_number_first /\
  Result.name (process_blocks Sample.level_name_first) = "Ravi Kumar" /\
  Result.name (process_blocks Sample.level_number_first) = "Unknown" /\
  process_blocks Sample.level_name_first
    <> process_blocks Sample.level_number_first.
Proof.
  split; [apply perm_swap|].
  split; [vm_compute; reflexivity|].
  split; [vm_compute; reflexivity|].
  vm_compute. discriminate.
Qed.

(** ** NameNormalizer on clean names *)

Lemma letter_facts (c : ascii) :
  Char.isalpha c = true ->
  not_space c = true /\ not_digit c = true /\ name_char c = true.
Proof.
  destruct c as [[] [] [] [] [] [] [] []]; vm_compute; intuition congruence.
Qed.

Lemma isupper_isalpha (c : ascii) :
  Char.isupper c = true -> Char.isalpha c = true.
Proof. unfold Char.isalpha. now intros ->. Qed.

Lemma islower_isalpha (c : ascii) :
  Char.islower c = true -> Char.isalpha c = true.
Proof. unfold Char.isalpha. intros ->. apply orb_true_r. Qed.

Lemma upper_of_upper (c : ascii) :
  Char.isupper c = true -> Char.upper c = c.
Proof.
  destruct c as [[] [] [] [] [] [] [] []]; vm_compute; congruence.
Qed.

Lemma lower_of_lower (c : ascii) :
  Char.islower c = true -> Char.lower c = c.
Proof.
  destruct c as [[] [] [] [] [] [] [] []]; vm_compute; congruence.
Qed.

Lemma lower_not_newline (c : ascii) :
  Char.islower c = true -> Ascii.eqb c "010" = false.
Proof.
  destruct c as [[] [] [] [] [] [] [] []]; vm_compute; congruence.
Qed.

Lemma append_assoc (a b c : string) : (a ++ b) ++ c = a ++ b ++ c.
Proof. induction a as [|x a IH]; simpl; [reflexivity | now rewrite IH]. Qed.

Lemma append_empty_r (a : string) : a ++ "" = a.
Proof. induction a as [|x a IH]; simpl; [reflexivity | now rewrite IH]. Qed.

Lemma eqb_append_word (tok : string) (c : ascii) (r : string) :
  String.eqb (tok ++ String c r) "" = false.
Proof. destruct tok; reflexivity. Qed.

(** A run of non-space characters is read into the current token. *)
Lemma split_from_word (w s tok : string) :
  Str.forallb not_space w = true ->
  Str.split_from tok (w ++ s) = Str.split_from (tok ++ w) s.
Proof.
  revert tok. induction w as [|c r IH]; intros tok H; simpl.
  - now rewrite append_empty_r.
  - simpl in H. apply andb_true_iff in H. destruct H as [Hc Hr].
    unfold not_space in Hc. apply negb_true_iff in Hc. rewrite Hc.
    rewrite IH by exact Hr. now rewrite append_assoc.
Qed.

Lemma split_two_words (w1 w2 : string) :
  Str.forallb not_space w1 = true -> Str.forallb not_space w2 = true ->
  w1 <> "" -> w2 <> "" ->
  Str.split (w1 ++ " " ++ w2) = [w1; w2].
Proof.
  intros H1 H2 N1 N2. unfold Str.split.
  rewrite split_from_word by exact H1. simpl.
  destruct w1 as [|c1 r1]; [congruence|]. simpl. f_equal.
  rewrite <- (append_empty_r w2) at 1.
  rewrite split_from_word by exact H2. simpl.
  destruct w2 as [|c2 r2]; [congruence | reflexivity].
Qed.

Lemma rstrip_word (w : string) :
  Str.forallb not_space w = true -> Str.rstrip w = w.
Proof.
  induction w as [|c r IH]; simpl; [reflexivity|].
  intro H. apply andb_true_iff in H. destruct H as [Hc Hr].
  rewrite IH by exact Hr.
  unfold not_space in Hc. apply negb_true_iff in Hc. rewrite Hc.
  now destruct r.
Qed.

Lemma rstrip_before_word (a w : string) :
  Str.forallb not_space w = true -> w <> "" ->
  Str.rstrip (a ++ w) = a ++ w.
Proof.
  intros H N. induction a as [|c r IH]; simpl.
  - now apply rstrip_word.
  - rewrite IH. destruct (r ++ w) eqn:E; [|reflexivity].
    destruct r; [simpl in E; congruence | discriminate E].
Qed.

Lemma star_space_word (c : ascii) (r : string) :
  not_space c = true ->
  Re.star Char.isspace (String c r) = ("", String c r).
Proof.
  unfold not_space. intro H. apply negb_true_iff in H. simpl.
  now rewrite H.
Qed.

Lemma remove_trailing_letter_word (w s : string) :
  Str.forallb not_space w = true ->
  remove_trailing_letter (w ++ s) = w ++ remove_trailing_letter s.
Proof.
  induction w as [|c r IH]; simpl; [reflexivity|].
  intro H. apply andb_true_iff in H. destruct H as [Hc Hr].
  unfold trailing_letter_at.
  rewrite (star_space_word c (r ++ s) Hc). now rewrite IH.
Qed.

Section CleanWord.

Variable w : string.
Hypothesis clean : capitalized_word w = true.

Lemma clean_word_shape :
  exists c r,
    w = String c r /\ Char.isupper c = true /\ r <> "" /\
    Str.forallb Char.islower r = true.
Proof.
  destruct w as [|c r]; [discriminate clean|]. simpl in clean.
  apply andb_true_iff in clean. destruct clean as [H Hr].
  apply andb_true_iff in H. destruct H as [Hc Hn].
  exists c, r. repeat split; try assumption.
  intros ->. discriminate Hn.
Qed.

Lemma clean_word_letters : Str.forallb Char.isalpha w = true.
Proof.
  destruct clean_word_shape as (c & r & -> & Hc & _ & Hr). simpl.
  rewrite (isupper_isalpha c Hc). simpl.
  eapply forallb_impl; [apply islower_isalpha | exact Hr].
Qed.

Lemma clean_word_not_space : Str.forallb not_space w = true.
Proof.
  eapply forallb_impl; [|apply clean_word_letters].
  intros c Hc. apply letter_facts, Hc.
Qed.

Lemma clean_word_not_digit : Str.forallb not_digit w = true.
Proof.
  eapply forallb_impl; [|apply clean_word_letters].
  intros c Hc. apply letter_facts, Hc.
Qed.

Lemma clean_word_name_char : Str.forallb name_char w = true.
Proof.
  eapply forallb_impl; [|apply clean_word_letters].
  intros c Hc. apply letter_facts, Hc.
Qed.

Lemma clean_word_nonempty : w <> "".
Proof. destruct clean_word_shape as (c & r & -> & _). discriminate. Qed.

Lemma clean_word_len : (2 <=? Str.len w) = true.
Proof.
  destruct clean_word_shape as (c & r & -> & _ & Hn & _).
  destruct r as [|c' r']; [congruence|].
  unfold Str.len. simpl String.length. apply Z.leb_le. lia.
Qed.

Lemma clean_word_capitalize : Str.capitalize w = w.
Proof.
  destruct clean_word_shape as (c & r & -> & Hc & _ & Hr). simpl.
  rewrite (upper_of_upper c Hc). f_equal.
  eapply map_id_on; [apply lower_of_lower | exact Hr].
Qed.

Lemma clean_word_fix : dictionary_keeps w -> fix_ocr_errors w = w.
Proof.
  unfold fix_ocr_errors. intros [-> | ->]; [|reflexivity].
  rewrite apply_replacements_id by apply clean_word_not_digit.
  apply clean_word_capitalize.
Qed.

(** A space before a clean word that ends the text is not a space before
    a single trailing letter. *)
Lemma clean_word_not_trailing_letter :
  remove_trailing_letter (" " ++ w) = " " ++ w.
Proof.
  destruct clean_word_shape as (c & r & E & Hc & Hn & Hr).
  assert (trailing_letter_at (" " ++ w) = None) as T.
  { rewrite E. unfold trailing_letter_at. simpl.
    assert (Char.isspace c = false) as ->.
    { apply negb_true_iff.
      apply (letter_facts c (isupper_isalpha c Hc)). }
    destruct r as [|c' r']; [congruence|].
    simpl in Hr. apply andb_true_iff in Hr. destruct Hr as [Hc' _].
    unfold at_end. simpl. rewrite (lower_not_newline c' Hc').
    now rewrite andb_false_r. }
  change (" " ++ w) with (String " " w) in *.
  simpl. simpl in T. rewrite T. f_equal.
  rewrite <- (append_empty_r w) at 1.
  rewrite remove_trailing_letter_word by apply clean_word_not_space.
  simpl. apply append_empty_r.
Qed.

End CleanWord.

(** C8 (as the program has it). A clean "Firstname Lastname" whose two
    words the dictionary of truncated names leaves alone is returned
    unchanged by the normalizer. *)
Theorem normalizer_keeps_clean_name (w1 w2 : string) :
  capitalized_word w1 = true -> capitalized_word w2 = true ->
  dictionary_keeps w1 -> dictionary_keeps w2 ->
  clean_and_correct_name (w1 ++ " " ++ w2) = w1 ++ " " ++ w2.
Proof.
  intros C1 C2 K1 K2.
  assert (Str.split (w1 ++ " " ++ w2) = [w1; w2]) as ES.
  { apply split_two_words;
      auto using clean_word_not_space, clean_word_nonempty. }
  assert (Str.join " " [w1; w2] = w1 ++ " " ++ w2) as EJ by reflexivity.
  assert (name_words (w1 ++ " " ++ w2) = [w1; w2]) as EW.
  { unfold name_words. rewrite ES, EJ.
    unfold remove_numbers, remove_special.
    rewrite (filter_id not_digit (w1 ++ " " ++ w2)).
    2:{ rewrite forallb_append, (clean_word_not_digit w1 C1). simpl.
        apply (clean_word_not_digit w2 C2). }
    rewrite (filter_id name_char (w1 ++ " " ++ w2)).
    2:{ rewrite forallb_append, (clean_word_name_char w1 C1). simpl.
        apply (clean_word_name_char w2 C2). }
    rewrite ES. simpl.
    now rewrite (clean_word_len w1 C1), (clean_word_len w2 C2). }
  unfold clean_and_correct_name, clean_and_correct_name_with.
  rewrite EW. simpl List.map.
  rewrite (clean_word_fix w1 C1 K1), (clean_word_fix w2 C2 K2).
  rewrite (clean_word_capitalize w1 C1), (clean_word_capitalize w2 C2).
  rewrite EJ. unfold Str.strip.
  assert (Str.lstrip (w1 ++ " " ++ w2) = w1 ++ " " ++ w2) as ->.
  { destruct (clean_word_shape w1 C1) as (c & r & -> & Hc & _). simpl.
    assert (Char.isspace c = false) as ->; [|reflexivity].
    apply negb_true_iff. apply (letter_facts c (isupper_isalpha c Hc)). }
  rewrite <- append_assoc.
  rewrite rstrip_before_word
    by auto using clean_word_not_space, clean_word_nonempty.
  rewrite append_assoc.
  rewrite remove_trailing_letter_word by now apply clean_word_not_space.
  now rewrite clean_word_not_trailing_letter.
Qed.

Lemma normalizer_keeps_clean_name_witness :
  clean_and_correct_name ("John" ++ " " ++ "Smith")
  = "John" ++ " " ++ "Smith".
Proof.
  apply (normalizer_keeps_clean_name "John" "Smith");
    try reflexivity; left; reflexivity.
Defined.

(** C8 as stated fails: "Naman Gupta" is a clean name, and the normalizer
    turns it into "Anaman Gupta", because "naman" is a fragment of the
    dictionary. *)
Lemma clean_name_rewritten_by_dictionary :
  capitalized_word "Naman" = true /\
  capitalized_word "Gupta" = true /\
  clean_and_correct_name ("Naman" ++ " " ++ "Gupta") = "Anaman Gupta" /\
  clean_and_correct_name ("Naman" ++ " " ++ "Gupta")
    <> "Naman" ++ " " ++ "Gupta".
Proof.
  split; [reflexivity|]. split; [reflexivity|].
  split; [reflexivity|]. vm_compute. discriminate.
Qed.

(** ** AnchorLocator *)

Lemma rep_spec (cls : ascii -> bool) (n : nat) (s m t : string) :
  Re.rep cls n s = Some (m, t) ->
  s = m ++ t /\ has_shape (repeat cls n) m = true.
Proof.
  revert s m t. induction n as [|k IH]; intros s m t; simpl.
  - intro H. injection H as <- <-. auto.
  - destruct s as [|c r]; [discriminate|].
    destruct (cls c) eqn:C; [|discriminate].
    destruct (Re.rep cls k r) as [[m' t']|] eqn:E; [|discriminate].
    intro H. injection H as <- <-.
    destruct (IH r m' t' E) as [-> Hs]. simpl. now rewrite C.
Qed.

Lemma star_spec (cls : ascii -> bool) (s m t : string) :
  Re.star cls s = (m, t) -> s = m ++ t /\ Str.forallb cls m = true.
Proof.
  revert m t. induction s as [|c r IH]; intros m t; simpl.
  - intro H. injection H as <- <-. auto.
  - destruct (cls c) eqn:C.
    + destruct (Re.star cls r) as [m' t'].
      intro H. injection H as <- <-.
      destruct (IH m' t' eq_refl) as [-> Hs]. simpl. now rewrite C.
    + intro H. injection H as <- <-. auto.
Qed.

Lemma has_shape_app (c1 c2 : list (ascii -> bool)) (a b : string) :
  has_shape c1 a = true -> has_shape c2 b = true ->
  has_shape (c1 ++ c2)%list (a ++ b) = true.
Proof.
  revert a. induction c1 as [|cls rest IH]; intros a Ha Hb.
  - destruct a; [exact Hb | discriminate Ha].
  - destruct a as [|x a]; [discriminate Ha|]. simpl in *.
    apply andb_true_iff in Ha. destruct Ha as [-> Ha]. now apply IH.
Qed.

Lemma rg_strict_at_spec (prev : option ascii) (s m : string) :
  Re.rg_strict_at prev s = Some m -> strict_shape m /\ prefix_of m s.
Proof.
  unfold Re.rg_strict_at. destruct (Re.boundary prev s); [|discriminate].
  destruct (Re.rep Char.isdigit 2 s) as [[a s1]|] eqn:E1; [|discriminate].
  destruct (Re.rep Char.isupper 3 s1) as [[b s2]|] eqn:E2; [|discriminate].
  destruct (Re.rep Char.isdigit 4 s2) as [[c s3]|] eqn:E3; [|discriminate].
  destruct (Re.boundary _ s3); [|discriminate].
  intro H. injection H as <-.
  apply rep_spec in E1, E2, E3.
  destruct E1 as [-> Ha], E2 as [-> Hb], E3 as [-> Hc]. split.
  - unfold strict_shape. auto using has_shape_app.
  - exists s3. now rewrite !append_assoc.
Qed.

Lemma digits_then_boundary_spec (ks : list nat) (s c : string) :
  Re.digits_then_boundary ks s = Some c ->
  exists k, In k ks /\ has_shape (digits k) c = true /\ prefix_of c s.
Proof.
  induction ks as [|k rest IH]; simpl; [discriminate|].
  assert (Re.digits_then_boundary rest s = Some c ->
          exists k0, (k = k0 \/ In k0 rest) /\
            has_shape (digits k0) c = true /\ prefix_of c s) as later.
  { intro H. destruct (IH H) as (k0 & Hk & Hs). exists k0. auto. }
  destruct (Re.rep Char.isdigit k s) as [[d t]|] eqn:E; [|exact later].
  destruct (Re.boundary _ t); [|exact later].
  intro H. injection H as <-. apply rep_spec in E. destruct E as [-> Hd].
  exists k. split; [now left|]. split; [exact Hd | now exists t].
Qed.

Lemma rg_loose_at_spec (prev : option ascii) (s m : string) :
  Re.rg_loose_at prev s = Some m -> loose_shape m /\ prefix_of m s.
Proof.
  unfold Re.rg_loose_at. destruct (Re.boundary prev s); [|discriminate].
  destruct (Re.rep Char.isdigit 2 s) as [[a s1]|] eqn:E1; [|discriminate].
  destruct (Re.rep Char.isupper 3 s1) as [[b s2]|] eqn:E2; [|discriminate].
  destruct (Re.digits_then_boundary _ s2) as [c|] eqn:E3; [|discriminate].
  intro H. injection H as <-.
  apply rep_spec in E1, E2. apply digits_then_boundary_spec in E3.
  destruct E1 as [-> Ha], E2 as [-> Hb], E3 as (k & Hk & Hc & t & ->).
  split.
  - exists k. split; [simpl in Hk; lia|]. auto using has_shape_app.
  - exists t. now rewrite !append_assoc.
Qed.

Lemma rg_spaced_at_spec (prev : option ascii) (s m : string) :
  Re.rg_spaced_at prev s = Some m -> spaced_shape m /\ prefix_of m s.
Proof.
  unfold Re.rg_spaced_at. destruct (Re.boundary prev s); [|discriminate].
  destruct (Re.rep Char.isdigit 2 s) as [[a s1]|] eqn:E1; [|discriminate].
  destruct (Re.star Char.isspace s1) as [w1 s2] eqn:E2.
  destruct (Re.rep Char.isupper 3 s2) as [[b s3]|] eqn:E3; [|discriminate].
  destruct (Re.star Char.isspace s3) as [w2 s4] eqn:E4.
  destruct (Re.rep Char.isdigit 4 s4) as [[c s5]|] eqn:E5; [|discriminate].
  destruct (Re.boundary _ s5); [|discriminate].
  intro H. injection H as <-.
  apply rep_spec in E1, E3, E5. apply star_spec in E2, E4.
  destruct E1 as [-> Ha], E2 as [-> H1], E3 as [-> Hb], E4 as [-> H2],
    E5 as [-> Hc].
  split.
  - exists a, w1, b, w2, c. auto 10.
  - exists s5. now rewrite !append_assoc.
Qed.

Lemma search_from_spec (at_ : option ascii -> string -> option string)
    (P : string -> Prop) (prev : option ascii) (s m : string) :
  (forall p t x, at_ p t = Some x -> P x /\ prefix_of x t) ->
  Re.search_from at_ prev s = Some m -> P m /\ substring_of m s.
Proof.
  intro Hat. revert prev.
  assert (forall p, at_ p s = Some m -> P m /\ substring_of m s) as here.
  { intros p H. destruct (Hat p s m H) as [HP [t ->]].
    split; [exact HP | now exists "", t]. }
  induction s as [|c r IH]; intro prev; simpl.
  - destruct (at_ prev "") eqn:E; [|discriminate].
    intro H. injection H as ->. eapply here, E.
  - destruct (at_ prev (String c r)) eqn:E.
    + intro H. injection H as ->. eapply here, E.
    + intro H.
      assert (forall p, at_ p r = Some m -> P m /\ substring_of m r) as G.
      { intros p Hp. destruct (Hat p r m Hp) as [HP [t ->]].
        split; [exact HP | now exists "", t]. }
      destruct (IH G (Some c) H) as [HP (pre & post & ->)].
      split; [exact HP | now exists (String c pre), post].
Qed.

Lemma first_match_spec (line_clean m : string) :
  first_match rg_patterns line_clean = Some m ->
  identifier_shape m /\ substring_of m line_clean.
Proof.
  unfold rg_patterns, first_match, Re.search, identifier_shape.
  destruct (Re.search_from Re.rg_strict_at None line_clean) eqn:E1.
  { intro H. injection H as ->.
    apply (search_from_spec _ strict_shape) in E1;
      [tauto | intros p t x; apply rg_strict_at_spec]. }
  destruct (Re.search_from Re.rg_loose_at None line_clean) eqn:E2.
  { intro H. injection H as ->.
    apply (search_from_spec _ loose_shape) in E2;
      [tauto | intros p t x; apply rg_loose_at_spec]. }
  destruct (Re.search_from Re.rg_spaced_at None line_clean) eqn:E3;
    [|discriminate].
  intro H. injection H as ->.
  apply (search_from_spec _ spaced_shape) in E3;
    [tauto | intros p t x; apply rg_spaced_at_spec].
Qed.

Lemma digit_first_not_sentinel (c : ascii) (r : string) :
  Char.isdigit c = true -> String.eqb (String c r) "Not Found" = false.
Proof.
  intro H. simpl.
  destruct (Ascii.eqb_spec c "N") as [-> | _]; [discriminate H | reflexivity].
Qed.

Lemma shape_digit_first (rest : list (ascii -> bool)) (m : string) :
  has_shape (Char.isdigit :: rest) m = true ->
  String.eqb m "Not Found" = false.
Proof.
  destruct m as [|c r]; [reflexivity|]. simpl has_shape.
  intro H. apply andb_true_iff in H. destruct H as [Hc _].
  now apply digit_first_not_sentinel.
Qed.

(** An identifier starts with a digit, so it is not the sentinel. *)
Lemma identifier_not_sentinel (m : string) :
  identifier_shape m -> String.eqb m "Not Found" = false.
Proof.
  intros [H | [(k & _ & H) | (a & w1 & b & w2 & c & -> & Ha & _)]].
  - eapply shape_digit_first. exact H.
  - eapply shape_digit_first. exact H.
  - destruct a as [|x a]; [discriminate Ha|].
    simpl in Ha. apply andb_true_iff in Ha. destruct Ha as [Hx _].
    now apply digit_first_not_sentinel.
Qed.

Lemma find_rg_from_cons (i : Z) (line : string) (rest : list string)
    (st : string * Z) :
  find_rg_from i (line :: rest) st =
  let st' :=
    match first_match rg_patterns (clean_line line) with
    | Some m => (m, i)
    | None => st
    end in
  if negb (String.eqb (fst st') "Not Found") then st'
  else find_rg_from (i + 1) rest st'.
Proof. reflexivity. Qed.

Lemma find_rg_from_spec (lines : list string) (i idx0 : Z) :
  let found := find_rg_from i lines ("Not Found", idx0) in
  (found = ("Not Found", idx0) /\ Forall no_identifier lines) \/
  (exists k line m,
     nth_error lines k = Some line /\
     first_match rg_patterns (clean_line line) = Some m /\
     found = (m, i + Z.of_nat k) /\
     Forall no_identifier (firstn k lines)).
Proof.
  revert i. induction lines as [|line rest IH]; intro i; cbv zeta.
  - left. split; [reflexivity | constructor].
  - rewrite find_rg_from_cons.
    destruct (first_match rg_patterns (clean_line line)) as [m|] eqn:E;
      cbv zeta; cbn [fst].
    + right. exists 0%nat, line, m.
      destruct (first_match_spec _ _ E) as [Hshape _].
      rewrite (identifier_not_sentinel m Hshape). simpl.
      rewrite Z.add_0_r. repeat split; auto.
    + change (negb ("Not Found" =? "Not Found")%string) with false.
      cbv iota.
      destruct (IH (i + 1)) as [[-> Hall] | (k & l & m & Hn & Hm & -> & Hk)].
      * left. split; [reflexivity | now constructor].
      * right. exists (S k), l, m. simpl.
        repeat split; auto. f_equal. lia.
Qed.

(** C4. The identifier returned is the sentinel "Not Found", with anchor
    index -1, exactly when no line holds a match; otherwise it has one of
    the three identifier shapes, is a substring of the normalization
    (upper-cased, spaces and hyphens removed) of the line at the anchor
    index, is what the patterns, tried in order, find in that line, and no
    line before it holds a match. *)
Theorem identifier_is_sentinel_or_shaped (text_blocks : list TextBlock.t) :
  let lines := lines_of text_blocks in
  let result := extract_vit_id_multiline text_blocks in
  let rg_number := Result.rgNumber result in
  let rg_index := Debug.rgFoundAt (Result.debug result) in
  (rg_number = "Not Found" /\ rg_index = -1 /\
   Forall no_identifier lines) \/
  (exists line,
     0 <= rg_index /\
     nth_error lines (Z.to_nat rg_index) = Some line /\
     first_match rg_patterns (clean_line line) = Some rg_number /\
     identifier_shape rg_number /\
     substring_of rg_number (clean_line line) /\
     rg_number <> "Not Found" /\
     Forall no_identifier (firstn (Z.to_nat rg_index) lines)).
Proof.
  cbv zeta. pose proof (extract_anchor text_blocks) as EA.
  destruct (extract_vit_id_multiline text_blocks) as [nm id ok [tl idx cf tc]].
  simpl in *. unfold find_rg in EA.
  destruct (find_rg_from_spec (lines_of text_blocks) 0 (-1))
    as [[E Hall] | (k & line & m & Hn & Hm & E & Hk)];
    cbv zeta in E; rewrite E in EA; injection EA as -> ->.
  - left. auto.
  - right. exists line. simpl. rewrite Nat2Z.id.
    destruct (first_match_spec _ _ Hm) as [Hshape Hsub].
    repeat split; auto; try lia.
    intros ->. pose proof (identifier_not_sentinel _ Hshape) as N.
    discriminate N.
Qed.

(** ** The other scenarios of the specification, by evaluation *)

Example scenario_a_in_order : StronglySorted top_le Sample.scenario_a.
Proof.
  repeat constructor; unfold top_le; vm_compute; discriminate.
Qed.

Example scenario_b_result :
  process_blocks Sample.scenario_b
  = Result.mk "Ravi Kumar" "21CSE5678" true
      (Debug.mk 2 1 1
         (Some (Candidate.mk "RAVI KUMAR" 44 1 0 1 ["RAVI KUMAR"]))).
Proof. vm_compute. reflexivity. Qed.

Example scenario_c_result :
  process_blocks Sample.scenario_c
  = Result.mk "Unknown" "Not Found" true (Debug.mk 2 (-1) 0 None).
Proof. vm_compute. reflexivity. Qed.

Example scenario_d_digits :
  score_name_candidate_multiline "RAVI KUMAR 98765 43210"
    ["RAVI KUMAR"; "98765 43210"] 0 (-1) 2 false = 0.
Proof. vm_compute. reflexivity. Qed.

Example name_words_sample :
  name_words "  john   a1b smith x" = ["john"; "ab"; "smith"].
Proof. vm_compute. reflexivity. Qed.

(** * Further properties *)

(** ** CandidateScorer: range of the score *)

Lemma fold_line_bonus_le (raw_lines : list string) (a : Z) :
  fold_left line_bonus raw_lines a
  <= a + 2 * Z.of_nat (List.length raw_lines).
Proof.
  revert a. induction raw_lines as [|l r IH]; intro a;
    [simpl; lia|].
  cbn [fold_left List.length]. unfold line_bonus at 2.
  destruct (3 <=? Str.len (Str.strip l)).
  - specialize (IH (a + 2)). lia.
  - specialize (IH a). lia.
Qed.

Lemma positive_indicators_bounds (text : string) (raw_lines : list string)
    (start_idx rg_index num_lines : Z) (near_name_keyword : bool) :
  5 <= positive_indicators text raw_lines start_idx rg_index num_lines
         near_name_keyword
    <= 44 + multi_line_bonus num_lines
       + (if near_name_keyword then 12 else 0)
       + 2 * Z.of_nat (List.length raw_lines).
Proof.
  unfold positive_indicators.
  match goal with
  | |- context [fold_left line_bonus raw_lines ?x] =>
      remember x as base eqn:E
  end.
  assert (5 <= base
          <= 44 + multi_line_bonus num_lines
             + (if near_name_keyword then 12 else 0)) as Hbase.
  { subst base. unfold multi_line_bonus.
    repeat match goal with
           | |- context [if ?b then _ else _] => destruct b
           end; lia. }
  clear E.
  pose proof (fold_line_bonus_ge raw_lines base).
  pose proof (fold_line_bonus_le raw_lines base). lia.
Qed.

Lemma scorer_zero_iff (text : string) (raw_lines : list string)
    (start_idx rg_index num_lines : Z) (near_name_keyword : bool) :
  score_name_candidate_multiline text raw_lines start_idx rg_index
    num_lines near_name_keyword = 0
  <-> disqualified (Str.strip text).
Proof.
  unfold score_name_candidate_multiline, disqualified, too_short,
    has_skip_keyword, holds_identifier, mostly_digits.
  destruct (String.eqb_spec text "") as [-> | _]; simpl orb.
  { split; [intros _; left; vm_compute; reflexivity | reflexivity]. }
  destruct (Z.ltb_spec (Str.len (Str.strip text)) 3) as [L | L].
  { split; [intros _; now left | reflexivity]. }
  destruct (existsb _ skip_keywords) eqn:K.
  { split; [intros _ | reflexivity]. right; left.
    apply existsb_exists in K. exact K. }
  destruct (Re.search _ _) eqn:S.
  { split; [intros _ | reflexivity]. right; right; left. discriminate. }
  destruct (Z.gtb_spec (5 * Str.count Char.isdigit (Str.strip text))
              (Str.len (Str.strip text))) as [D | D].
  { split; [intros _ | reflexivity]. right; right; right. lia. }
  pose proof (positive_indicators_bounds (Str.strip text) raw_lines
                start_idx rg_index num_lines near_name_keyword) as B.
  split; [lia|].
  intros [H | [H | [H | H]]]; [lia | | congruence | lia].
  exfalso. apply existsb_exists in H. congruence.
Qed.

Lemma scorer_bounds (text : string) (raw_lines : list string)
    (start_idx rg_index num_lines : Z) (near_name_keyword : bool) :
  let score :=
    score_name_candidate_multiline text raw_lines start_idx rg_index
      num_lines near_name_keyword in
  score = 0 \/
  5 <= score
    <= 44 + multi_line_bonus num_lines
       + (if near_name_keyword then 12 else 0)
       + 2 * Z.of_nat (List.length raw_lines).
Proof.
  unfold score_name_candidate_multiline.
  destruct (String.eqb text "" || _); [now left|].
  destruct (existsb _ skip_keywords); [now left|].
  destruct (Re.search _ _); [now left|].
  destruct (5 * _ >? _); [now left|].
  right. apply positive_indicators_bounds.
Qed.

(** X1. The scorer returns 0 exactly when one of the four disqualifiers
    holds of the stripped text; otherwise the score lies between 5 and
    44 + the multi-line bonus + the keyword bonus + 2 per raw line, so
    the final [max(0, score)] never changes anything. *)
Theorem scorer_zero_or_in_range (text : string) (raw_lines : list string)
    (start_idx rg_index num_lines : Z) (near_name_keyword : bool) :
  let score :=
    score_name_candidate_multiline text raw_lines start_idx rg_index
      num_lines near_name_keyword in
  (score = 0 <-> disqualified (Str.strip text)) /\
  (score = 0 \/
   5 <= score
     <= 44 + multi_line_bonus num_lines
        + (if near_name_keyword then 12 else 0)
        + 2 * Z.of_nat (List.length raw_lines)) /\
  score <= 62 + 2 * Z.of_nat (List.length raw_lines).
Proof.
  cbv zeta. split; [apply scorer_zero_iff|].
  pose proof (scorer_bounds text raw_lines start_idx rg_index num_lines
                near_name_keyword) as B. cbv zeta in B.
  split; [exact B|].
  assert (multi_line_bonus num_lines <= 6) as M.
  { unfold multi_line_bonus.
    destruct (num_lines =? 2); [lia|]. destruct (num_lines =? 3); lia. }
  destruct near_name_keyword; lia.
Qed.

(** ** The pool: what its candidates look like *)

Lemma slice_length_le {A : Type} (l : list A) (i j : Z) :
  (List.length (slice l i j) <= Z.to_nat (j - i))%nat.
Proof. unfold slice. rewrite length_firstn. apply Nat.le_min_l. Qed.

Lemma slice_length {A : Type} (l : list A) (i j : Z) :
  0 <= i -> i <= j -> j <= Z.of_nat (List.length l) ->
  List.length (slice l i j) = Z.to_nat (j - i).
Proof.
  intros Hi Hij Hj. unfold slice. rewrite length_firstn, length_skipn. lia.
Qed.

Lemma find_rg_index_range (lines : list string) :
  -1 <= snd (find_rg lines) < Z.of_nat (List.length lines).
Proof.
  unfold find_rg.
  destruct (find_rg_from_spec lines 0 (-1))
    as [[E _] | (k & line & m & Hn & _ & E & _)];
    cbv zeta in E; rewrite E; simpl; [lia|].
  assert (k < List.length lines)%nat
    by (apply nth_error_Some; congruence).
  lia.
Qed.

(** X2. No candidate of the pool is disqualified: its text, stripped,
    has at least 3 characters, holds no stop-list keyword and no
    identifier-shaped substring, and is at most one fifth digits. *)
Theorem pool_candidates_not_disqualified (text_blocks : list TextBlock.t) :
  Forall
    (fun c =>
       let text := Str.strip (Candidate.name c) in
       3 <= Str.len text /\
       Forall (fun keyword => Str.contains keyword (Str.upper text) = false)
         skip_keywords /\
       Re.search Re.rg_plain_at (Str.remove_char " " (Str.upper text))
         = None /\
       5 * Str.count Char.isdigit text <= Str.len text)
    (name_candidates text_blocks).
Proof.
  assert (forall text raw s r n k,
            score_name_candidate_multiline text raw s r n k > 0 ->
            ~ disqualified (Str.strip text)) as ok.
  { intros text raw s r n k G D. apply (scorer_zero_iff text raw s r n k) in D.
    lia. }
  assert (forall text, ~ disqualified text ->
            3 <= Str.len text /\
            Forall (fun keyword =>
                      Str.contains keyword (Str.upper text) = false)
              skip_keywords /\
            Re.search Re.rg_plain_at (Str.remove_char " " (Str.upper text))
              = None /\
            5 * Str.count Char.isdigit text <= Str.len text) as spell.
  { unfold disqualified, too_short, has_skip_keyword, holds_identifier,
      mostly_digits.
    intros text N. split; [lia|]. split.
    - apply Forall_forall. intros kw Hkw.
      destruct (Str.contains kw (Str.upper text)) eqn:E; [|reflexivity].
      exfalso. apply N. right; left. now exists kw.
    - split; [|lia].
      destruct (Re.search _ _) eqn:E; [|reflexivity].
      exfalso. apply N. right; right; left. discriminate. }
  unfold name_candidates. apply Forall_app. split; apply Forall_forall;
    intros c Hc; cbv zeta; apply spell.
  - apply above_anchor_inv in Hc.
    destruct Hc as (n & s & _ & _ & _ & _ & Hpos & ->). simpl.
    eapply ok, Hpos.
  - apply after_keyword_inv in Hc.
    destruct Hc as (i & line & n & _ & _ & _ & _ & _ & Hpos & ->). simpl.
    eapply ok, Hpos.
Qed.

(** X3. Scores in the pool are bounded by the pass: a candidate of the
    anchor-relative pass has between 5 and 54 points, a candidate of the
    keyword pass between 27 and 76. *)
Theorem pool_scores_by_pass (text_blocks : list TextBlock.t)
    (lines : list string) (rg_index : Z) :
  Forall (fun c => 5 <= Candidate.score c <= 54)
    (above_anchor text_blocks lines rg_index) /\
  Forall (fun c => 27 <= Candidate.score c <= 76)
    (after_keyword lines rg_index).
Proof.
  assert (forall (l : list string) s n, In n [1; 2; 3] ->
            multi_line_bonus n
            + 2 * Z.of_nat (List.length (slice l s (s + n))) <= 10) as span.
  { intros l s n Hn. pose proof (slice_length_le l s (s + n)) as L.
    simpl in Hn.
    destruct Hn as [<- | [<- | [<- | []]]];
      [ change (multi_line_bonus 1) with 0
      | change (multi_line_bonus 2) with 6
      | change (multi_line_bonus 3) with 4 ]; lia. }
  split; apply Forall_forall; intros c Hc.
  - apply above_anchor_inv in Hc.
    destruct Hc as (n & s & Hn & _ & _ & _ & Hpos & ->). simpl.
    pose proof (scorer_bounds (Str.join " " (slice lines s (s + n)))
                  (slice lines s (s + n)) s rg_index n false) as B.
    pose proof (span lines s n Hn). cbv zeta in B. lia.
  - apply after_keyword_inv in Hc.
    destruct Hc as (i & line & n & _ & _ & _ & Hn & _ & Hpos & ->). simpl.
    pose proof (scorer_bounds
                  (Str.join " " (slice lines (i + 1) (i + 1 + n)))
                  (slice lines (i + 1) (i + 1 + n)) (i + 1) rg_index n true)
      as B.
    pose proof (scorer_keyword_signal
                  (Str.join " " (slice lines (i + 1) (i + 1 + n)))
                  (slice lines (i + 1) (i + 1 + n)) (i + 1) rg_index n) as K.
    pose proof (scorer_bounds
                  (Str.join " " (slice lines (i + 1) (i + 1 + n)))
                  (slice lines (i + 1) (i + 1 + n)) (i + 1) rg_index n false)
      as B0.
    pose proof (span lines (i + 1) n Hn). cbv zeta in B, K, B0.
    destruct (Z.eqb_spec
                (score_name_candidate_multiline
                   (Str.join " " (slice lines (i + 1) (i + 1 + n)))
                   (slice lines (i + 1) (i + 1 + n)) (i + 1) rg_index n
                   false) 0); lia.
Qed.

(** X4. A candidate of the anchor-relative pass is a span of one to three
    lines that starts at most six lines above the anchor and ends above
    it: the anchor line and the lines below it are never part of it.  Its
    raw lines are the lines of the span and its text is their join. *)
Theorem above_anchor_spans_in_window (text_blocks : list TextBlock.t) :
  let lines := lines_of text_blocks in
  let rg_index := snd (find_rg lines) in
  Forall
    (fun c =>
       Z.max 0 (rg_index - 6) <= Candidate.start_idx c /\
       Candidate.end_idx c <= rg_index /\
       Candidate.end_idx c = Candidate.start_idx c + Candidate.lines c /\
       1 <= Candidate.lines c <= 3 /\
       Candidate.raw_lines c
         = slice lines (Candidate.start_idx c) (Candidate.end_idx c) /\
       Z.of_nat (List.length (Candidate.raw_lines c)) = Candidate.lines c /\
       Candidate.name c = Str.join " " (Candidate.raw_lines c))
    (above_anchor text_blocks lines rg_index).
Proof.
  cbv zeta. apply Forall_forall. intros c Hc.
  pose proof (find_rg_index_range (lines_of text_blocks)) as R.
  apply above_anchor_inv in Hc.
  destruct Hc as (n & s & Hn & Hlo & Hhi & _ & _ & ->). simpl.
  assert (1 <= n <= 3) as N
    by (simpl in Hn; destruct Hn as [<- | [<- | [<- | []]]]; lia).
  repeat split; try lia.
  rewrite slice_length by lia. lia.
Qed.

(** X5. A candidate of the keyword pass is a span of one to three lines
    that starts on the line after a keyword line and ends within the
    list; the keyword line itself is not part of it. *)
Theorem after_keyword_spans_follow_keyword (lines : list string)
    (rg_index : Z) :
  Forall
    (fun c =>
       (exists line,
          nth_error lines (Z.to_nat (Candidate.start_idx c - 1)) = Some line
          /\ is_keyword_line line = true) /\
       1 <= Candidate.start_idx c /\
       Candidate.end_idx c <= Z.of_nat (List.length lines) /\
       Candidate.end_idx c = Candidate.start_idx c + Candidate.lines c /\
       1 <= Candidate.lines c <= 3 /\
       Candidate.raw_lines c
         = slice lines (Candidate.start_idx c) (Candidate.end_idx c) /\
       Z.of_nat (List.length (Candidate.raw_lines c)) = Candidate.lines c /\
       Candidate.name c = Str.join " " (Candidate.raw_lines c))
    (after_keyword lines rg_index).
Proof.
  apply Forall_forall. intros c Hc. apply after_keyword_inv in Hc.
  destruct Hc as (i & line & n & Hi & Hline & Hkw & Hn & Hlt & _ & ->).
  simpl.
  assert (1 <= n <= 3) as N
    by (simpl in Hn; destruct Hn as [<- | [<- | [<- | []]]]; lia).
  split.
  { exists line. replace (i + 1 - 1) with i by lia. now split. }
  repeat split; try lia.
  rewrite slice_length by lia. lia.
Qed.

(** ** The pool: how large it gets *)

Lemma above_anchor_starts_length (text_blocks : list TextBlock.t)
    (lines : list string) (rg_index search_end num_lines a : Z)
    (m i : nat) :
  (List.length
     (above_anchor_starts text_blocks lines rg_index search_end num_lines
        (List.map (fun k => (a + Z.of_nat k)%Z) (seq i m)))
   <= Z.to_nat (search_end - num_lines - (a + Z.of_nat i) + 1)%Z)%nat.
Proof.
  revert i. induction m as [|m IH]; intro i; simpl; [lia|].
  destruct (a + Z.of_nat i + num_lines >? search_end) eqn:B;
    [simpl; lia|].
  specialize (IH (S i)).
  destruct (_ && _); [lia|].
  destruct (_ >? 0); simpl; lia.
Qed.

Lemma after_keyword_spans_length (lines : list string) (rg_index i : Z)
    (spans : list Z) :
  (List.length (after_keyword_spans lines rg_index i spans)
   <= List.length spans)%nat.
Proof.
  induction spans as [|n rest IH]; simpl; [lia|].
  destruct (i + n <? _); [|lia].
  destruct (i + 1 + n >? _); [simpl; lia|].
  destruct (_ >? 0); simpl; lia.
Qed.

Lemma after_keyword_length_from (lines all : list string) (rg_index k : Z) :
  (List.length
     (flat_map
        (fun '(i, line) =>
           if Str.contains "NAME" (Str.upper line)
           then after_keyword_spans all rg_index i [1; 2; 3]%Z
           else [])
        (enumerate_from k lines))
   <= 3 * List.length (List.filter is_keyword_line lines))%nat.
Proof.
  revert k. induction lines as [|line rest IH]; intro k; [simpl; lia|].
  cbn [enumerate_from flat_map List.filter]. rewrite length_app.
  specialize (IH (k + 1)). unfold is_keyword_line at 1.
  pose proof (after_keyword_spans_length all rg_index k [1; 2; 3]) as L.
  cbn [List.length] in L.
  destruct (Str.contains "NAME" (Str.upper line)); cbn [List.length]; lia.
Qed.

(** X6. The anchor-relative pass appends at most 15 candidates and the
    keyword pass at most 3 for each keyword line, so the number of
    candidates the extractor reports is at most 15 plus three times the
    number of lines that contain "NAME". *)
Theorem pool_size_bounded (text_blocks : list TextBlock.t) :
  let lines := lines_of text_blocks in
  let rg_index := snd (find_rg lines) in
  (List.length (above_anchor text_blocks lines rg_index) <= 15)%nat /\
  (List.length (after_keyword lines rg_index)
   <= 3 * List.length (List.filter is_keyword_line lines))%nat /\
  Debug.candidatesFound
    (Result.debug (extract_vit_id_multiline text_blocks))
  <= 15 + 3 * Z.of_nat (List.length (List.filter is_keyword_line lines)).
Proof.
  cbv zeta.
  assert (forall rg_index,
            (List.length
               (above_anchor text_blocks (lines_of text_blocks) rg_index)
             <= 15)%nat) as A.
  { intro rg. unfold above_anchor. destruct (rg >? 0); [|simpl; lia].
    cbv zeta. cbn [flat_map]. rewrite !length_app. unfold range.
    pose proof (above_anchor_starts_length text_blocks
                  (lines_of text_blocks) rg rg 1 (Z.max 0 (rg - 6))
                  (Z.to_nat (rg - Z.max 0 (rg - 6))) 0).
    pose proof (above_anchor_starts_length text_blocks
                  (lines_of text_blocks) rg rg 2 (Z.max 0 (rg - 6))
                  (Z.to_nat (rg - Z.max 0 (rg - 6))) 0).
    pose proof (above_anchor_starts_length text_blocks
                  (lines_of text_blocks) rg rg 3 (Z.max 0 (rg - 6))
                  (Z.to_nat (rg - Z.max 0 (rg - 6))) 0).
    simpl List.length. lia. }
  assert (forall rg_index,
            (List.length (after_keyword (lines_of text_blocks) rg_index)
             <= 3 * List.length
                      (List.filter is_keyword_line (lines_of text_blocks)))%nat)
    as K.
  { intro rg. apply after_keyword_length_from. }
  split; [apply A|]. split; [apply K|].
  unfold extract_vit_id_multiline.
  destruct (find_rg (lines_of text_blocks)) as [n rg].
  cbn [Debug.candidatesFound Result.debug].
  unfold sort_by_score. rewrite stable_sort_length, length_app.
  specialize (A rg). specialize (K rg). lia.
Qed.

(** ** Nothing to go on *)

Lemma after_keyword_none_from (lines all : list string) (rg_index k : Z) :
  Forall (fun line => is_keyword_line line = false) lines ->
  flat_map
    (fun '(i, line) =>
       if Str.contains "NAME" (Str.upper line)
       then after_keyword_spans all rg_index i [1; 2; 3]
       else [])
    (enumerate_from k lines) = [].
Proof.
  intro H. revert k. induction H as [|line rest Hl _ IH]; intro k;
    [reflexivity|].
  cbn [enumerate_from flat_map]. unfold is_keyword_line in Hl.
  now rewrite Hl, IH.
Qed.

(** X7. When no line contains "NAME" and the registration number is
    missing or stands on the first line, the pool is empty: the name is
    "Unknown", no candidate is reported, and the identifier is still
    whatever the anchor search found. *)
Theorem unknown_without_label_or_lines_above
    (text_blocks : list TextBlock.t) :
  Forall (fun line => is_keyword_line line = false) (lines_of text_blocks) ->
  snd (find_rg (lines_of text_blocks)) <= 0 ->
  name_candidates text_blocks = [] /\
  extract_vit_id_multiline text_blocks
  = Result.mk "Unknown" (fst (find_rg (lines_of text_blocks))) true
      (Debug.mk (Z.of_nat (List.length text_blocks))
         (snd (find_rg (lines_of text_blocks))) 0 None).
Proof.
  intros K R.
  assert (above_anchor text_blocks (lines_of text_blocks)
            (snd (find_rg (lines_of text_blocks))) = []) as EA.
  { unfold above_anchor.
    destruct (Z.gtb_spec (snd (find_rg (lines_of text_blocks))) 0);
      [lia | reflexivity]. }
  assert (after_keyword (lines_of text_blocks)
            (snd (find_rg (lines_of text_blocks))) = []) as EK
    by now apply after_keyword_none_from.
  split.
  - unfold name_candidates. cbv zeta. now rewrite EA, EK.
  - unfold extract_vit_id_multiline.
    destruct (find_rg (lines_of text_blocks)) as [n i]. simpl in *.
    rewrite EA, EK. simpl. unfold lines_of. now rewrite length_map.
Qed.

Lemma unknown_without_label_or_lines_above_witness :
  name_candidates Sample.level_number_first = [] /\
  extract_vit_id_multiline Sample.level_number_first
  = Result.mk "Unknown"
      (fst (find_rg (lines_of Sample.level_number_first))) true
      (Debug.mk (Z.of_nat (List.length Sample.level_number_first))
         (snd (find_rg (lines_of Sample.level_number_first))) 0 None).
Proof.
  apply (unknown_without_label_or_lines_above Sample.level_number_first).
  - repeat constructor.
  - vm_compute. discriminate.
Defined.

(** ** ProximityFilter: what it tests *)

Lemma Qgtb_false_iff (a b : Q) : Qgtb a b = false <-> (a <= b)%Q.
Proof.
  unfold Qgtb. rewrite negb_false_iff. apply Qle_bool_iff.
Qed.

(** X8. The proximity test passes exactly when every two consecutive
    blocks are at most 0.015 apart, the gap being the one the program
    computes in floats (the top of the lower block minus the rounded
    bottom of the upper one, rounded) and 0.015 the float of that name;
    a list of fewer than two blocks passes. *)
Theorem vertically_close_iff_small_gaps (blocks : list TextBlock.t) :
  are_blocks_vertically_close blocks = true <->
  (forall i cur next,
     nth_error blocks i = Some cur ->
     nth_error blocks (S i) = Some next ->
     (gap cur next <= default_max_gap)%Q).
Proof.
  unfold are_blocks_vertically_close.
  induction blocks as [|a [|b rest] IH].
  - split; [|reflexivity]. intros _ i cur next H. now destruct i.
  - split; [|reflexivity]. intros _ [|[|i]] cur next H G; discriminate G.
  - change (are_blocks_vertically_close_gap default_max_gap (a :: b :: rest))
      with (if Qgtb (gap a b) default_max_gap then false
            else are_blocks_vertically_close_gap default_max_gap (b :: rest)).
    destruct (Qgtb (gap a b) default_max_gap) eqn:G.
    + split; [discriminate|]. intro H. exfalso.
      assert (Qgtb (gap a b) default_max_gap = false) as F
        by (apply Qgtb_false_iff, (H 0%nat a b); reflexivity).
      congruence.
    + apply Qgtb_false_iff in G. rewrite IH. split.
      * intros H [|i] cur next Hc Hn.
        -- injection Hc as <-. injection Hn as <-. exact G.
        -- apply (H i); assumption.
      * intros H i cur next Hc Hn. apply (H (S i)); assumption.
Qed.

(** ** LineIndex: the sort is a stable sort *)

Lemma filter_insert_by_top (q : Q) (x : TextBlock.t)
    (l : list TextBlock.t) :
  List.filter (same_top q)
    (insert_stable (fun y x => Qgtb (TextBlock.top x) (TextBlock.top y)) x l)
  = List.filter (same_top q) (x :: l).
Proof.
  induction l as [|y r IH]; [reflexivity|].
  cbn [insert_stable].
  destruct (Qgtb (TextBlock.top x) (TextBlock.top y)) eqn:G;
    [|reflexivity].
  cbn [List.filter] in *. rewrite IH.
  destruct (same_top q x) eqn:Px; [|reflexivity].
  destruct (same_top q y) eqn:Py; [|reflexivity].
  exfalso. unfold same_top in Px, Py.
  apply Qeq_bool_iff in Px, Py.
  unfold Qgtb in G. apply negb_true_iff in G.
  assert (TextBlock.top x <= TextBlock.top y)%Q as L
    by (rewrite Px, Py; apply Qle_refl).
  apply Qle_bool_iff in L. congruence.
Qed.

(** X9. The sort of [lambda_handler] returns the same lines in ascending
    order of [top]; lines with the same [top] keep the order they came
    in; sorting a sorted list changes nothing, so the pipeline gives the
    same result on a list and on its sorted form. *)
Theorem sort_by_top_is_stable_sort (text_blocks : list TextBlock.t) :
  Permutation text_blocks (sort_by_top text_blocks) /\
  StronglySorted top_le (sort_by_top text_blocks) /\
  (forall q,
     List.filter (same_top q) (sort_by_top text_blocks)
     = List.filter (same_top q) text_blocks) /\
  sort_by_top (sort_by_top text_blocks) = sort_by_top text_blocks /\
  process_blocks (sort_by_top text_blocks) = process_blocks text_blocks.
Proof.
  assert (sort_by_top (sort_by_top text_blocks) = sort_by_top text_blocks)
    as I by apply sort_by_top_in_order, sort_by_top_sorted.
  split; [apply stable_sort_perm|]. split; [apply sort_by_top_sorted|].
  split; [|split; [exact I | unfold process_blocks; now rewrite I]].
  intro q. induction text_blocks as [|x r IH]; [reflexivity|].
  unfold sort_by_top in *. cbn [stable_sort fold_right].
  fold (stable_sort
          (fun y x => Qgtb (TextBlock.top x) (TextBlock.top y)) r).
  rewrite filter_insert_by_top. cbn [List.filter].
  rewrite IH; [reflexivity|].
  apply sort_by_top_in_order, sort_by_top_sorted.
Qed.

(** ** NameNormalizer: what comes out *)

Lemma token_char_facts (c : ascii) :
  token_char c = true ->
  not_space c = true /\ not_digit c = true /\ name_char c = true /\
  token_char (Char.upper c) = true /\ token_char (Char.lower c) = true /\
  Ascii.eqb c "010" = false.
Proof.
  destruct c as [[] [] [] [] [] [] [] []]; vm_compute; intuition congruence.
Qed.

Lemma name_char_token (c : ascii) :
  name_char c = true -> not_space c = true -> token_char c = true.
Proof.
  destruct c as [[] [] [] [] [] [] [] []]; vm_compute; congruence.
Qed.

Lemma case_maps (c : ascii) :
  Char.upper (Char.upper c) = Char.upper c /\
  Char.lower (Char.lower c) = Char.lower c /\
  Char.lower (Char.upper c) = Char.lower c.
Proof.
  destruct c as [[] [] [] [] [] [] [] []]; vm_compute; auto.
Qed.

Lemma forallb_both (p q r : ascii -> bool) (s : string) :
  (forall c, p c = true -> q c = true -> r c = true) ->
  Str.forallb p s = true -> Str.forallb q s = true ->
  Str.forallb r s = true.
Proof.
  intro H. induction s as [|c t IH]; simpl; [reflexivity|].
  intros P Q. apply andb_true_iff in P, Q.
  destruct P as [Pc Pt], Q as [Qc Qt]. now rewrite (H c Pc Qc), IH.
Qed.

Lemma forallb_map (p : ascii -> bool) (f : ascii -> ascii) (s : string) :
  (forall c, p c = true -> p (f c) = true) ->
  Str.forallb p s = true -> Str.forallb p (Str.map f s) = true.
Proof.
  intro H. induction s as [|c t IH]; simpl; [reflexivity|].
  intro P. apply andb_true_iff in P. destruct P as [Pc Pt].
  now rewrite (H c Pc), IH.
Qed.

Lemma map_map_string (f g h : ascii -> ascii) (s : string) :
  (forall c, f (g c) = h c) -> Str.map f (Str.map g s) = Str.map h s.
Proof.
  intro H. induction s as [|c t IH]; simpl; [reflexivity|].
  now rewrite H, IH.
Qed.

Lemma length_map_string (f : ascii -> ascii) (s : string) :
  String.length (Str.map f s) = String.length s.
Proof. induction s as [|c t IH]; simpl; [reflexivity | now rewrite IH]. Qed.

Lemma len_capitalize (w : string) : Str.len (Str.capitalize w) = Str.len w.
Proof.
  unfold Str.len. destruct w as [|c r]; [reflexivity|]. simpl.
  unfold Str.lower. now rewrite length_map_string.
Qed.

Lemma capitalize_idem (w : string) :
  Str.capitalize (Str.capitalize w) = Str.capitalize w.
Proof.
  destruct w as [|c r]; [reflexivity|]. simpl.
  destruct (case_maps c) as (-> & _ & _). f_equal.
  unfold Str.lower. apply map_map_string. intro x. apply case_maps.
Qed.

Lemma lower_capitalize (w : string) :
  Str.lower (Str.capitalize w) = Str.lower w.
Proof.
  destruct w as [|c r]; [reflexivity|]. unfold Str.lower. simpl.
  destruct (case_maps c) as (_ & _ & ->). f_equal.
  apply map_map_string. intro x. apply case_maps.
Qed.

Lemma token_chars_capitalize (w : string) :
  Str.forallb token_char w = true ->
  Str.forallb token_char (Str.capitalize w) = true.
Proof.
  destruct w as [|c r]; [reflexivity|]. simpl. intro H.
  apply andb_true_iff in H. destruct H as [Hc Hr].
  destruct (token_char_facts c Hc) as (_ & _ & _ & -> & _). simpl.
  apply forallb_map; [|exact Hr]. intros x Hx. apply token_char_facts, Hx.
Qed.

Lemma incomplete_fix_capitalize (w : string) :
  incomplete_fix (Str.capitalize w) = incomplete_fix w.
Proof.
  unfold incomplete_fix. now rewrite len_capitalize, lower_capitalize.
Qed.

Lemma token_chars_digit_free (w : string) :
  Str.forallb token_char w = true -> Str.forallb not_digit w = true.
Proof. apply forallb_impl. intros c H. apply token_char_facts, H. Qed.

Lemma first_pattern_in (patterns : list (string * string))
    (word_lower name : string) :
  first_pattern patterns word_lower = Some name ->
  In name (List.map snd patterns).
Proof.
  induction patterns as [|[p f] rest IH]; simpl; [discriminate|].
  destruct (Str.contains p word_lower).
  - intro H. injection H as <-. now left.
  - intro H. right. now apply IH.
Qed.

(** The canonical names of the dictionary are words of a name, and the
    normalizer leaves each of them as it is. *)
Lemma canonical_names_fixed :
  Forall
    (fun name =>
       word_token name /\ Str.capitalize name = name /\
       incomplete_fix name = Some name)
    (List.map snd incomplete_patterns).
Proof.
  unfold word_token. repeat constructor; vm_compute; congruence.
Qed.

Section NormalizeWord.

Variable w : string.
Hypothesis token : word_token w.

Lemma fix_cases :
  (exists name,
     incomplete_fix w = Some name /\ normalize_word w = name /\
     word_token name /\ Str.capitalize name = name /\
     incomplete_fix name = Some name) \/
  (incomplete_fix w = None /\ normalize_word w = Str.capitalize w).
Proof.
  unfold normalize_word, fix_ocr_errors.
  destruct (incomplete_fix w) as [name|] eqn:E.
  - left. exists name.
    assert (In name (List.map snd incomplete_patterns)) as I.
    { unfold incomplete_fix in E. destruct (4 <=? Str.len w);
        [|discriminate]. eapply first_pattern_in, E. }
    pose proof canonical_names_fixed as C. rewrite Forall_forall in C.
    destruct (C name I) as (T & K & F). now rewrite K.
  - right. split; [reflexivity|].
    rewrite apply_replacements_id
      by (apply token_chars_digit_free, token).
    apply capitalize_idem.
Qed.

Lemma normalize_word_token : word_token (normalize_word w).
Proof.
  destruct fix_cases as [(name & _ & -> & T & _) | [_ ->]]; [exact T|].
  destruct token as [L C]. split.
  - now rewrite len_capitalize.
  - now apply token_chars_capitalize.
Qed.

Lemma normalize_word_idem :
  normalize_word (normalize_word w) = normalize_word w.
Proof.
  destruct fix_cases as [(name & _ & -> & _ & K & F) | [N ->]].
  - unfold normalize_word, fix_ocr_errors. now rewrite F.
  - unfold normalize_word, fix_ocr_errors.
    rewrite incomplete_fix_capitalize, N.
    rewrite apply_replacements_id.
    + now rewrite !capitalize_idem.
    + apply token_chars_digit_free, token_chars_capitalize, token.
Qed.

End NormalizeWord.

Lemma split_from_tokens (s tok : string) :
  Str.forallb not_space tok = true ->
  Forall (fun w => w <> "" /\ Str.forallb not_space w = true)
    (Str.split_from tok s).
Proof.
  revert tok. induction s as [|c r IH]; intros tok Ht; simpl.
  - destruct (String.eqb_spec tok ""); auto.
  - destruct (Char.isspace c) eqn:C.
    + destruct (String.eqb_spec tok ""); [now apply IH|].
      constructor; [auto | now apply IH].
    + apply IH. rewrite forallb_append, Ht. simpl.
      unfold not_space. now rewrite C.
Qed.

Lemma name_words_tokens (name : string) :
  Forall word_token (name_words name).
Proof.
  unfold name_words. cbv zeta.
  set (cleaned := remove_special _).
  assert (Str.forallb name_char cleaned = true) as C
    by apply forallb_filter.
  pose proof (split_forallb name_char cleaned C) as A.
  pose proof (split_from_tokens cleaned "" eq_refl) as B.
  fold (Str.split cleaned) in B.
  rewrite Forall_forall in A, B |- *.
  intros w Hw. apply filter_In in Hw. destruct Hw as [Hw L].
  split; [now apply Z.leb_le|].
  apply (forallb_both name_char not_space);
    [apply name_char_token | now apply A | now apply B].
Qed.

Lemma word_token_shape (w : string) :
  word_token w ->
  exists c c' z,
    w = String c (String c' z) /\ not_space c = true /\
    not_space c' = true /\ Ascii.eqb c' "010" = false /\
    Str.forallb not_space w = true.
Proof.
  intros [L T]. unfold Str.len in L.
  destruct w as [|c [|c' z]]; [simpl in L; lia | simpl in L; lia |].
  exists c, c', z. split; [reflexivity|].
  assert (Str.forallb not_space (String c (String c' z)) = true) as N.
  { eapply forallb_impl; [|exact T]. intros x Hx.
    apply token_char_facts, Hx. }
  simpl in T, N.
  apply andb_true_iff in T, N. destruct T as [_ T], N as [Nc N].
  apply andb_true_iff in T, N. destruct T as [T _], N as [Nc' N].
  repeat split; try assumption.
  - apply token_char_facts, T.
  - simpl. now rewrite Nc, Nc', N.
Qed.

Lemma join_cons (t t' : string) (r : list string) :
  Str.join " " (t :: t' :: r) = t ++ " " ++ Str.join " " (t' :: r).
Proof. reflexivity. Qed.

Lemma join_head (t : string) (r : list string) :
  exists z, Str.join " " (t :: r) = t ++ z.
Proof.
  destruct r as [|t' r].
  - exists "". simpl. now rewrite append_empty_r.
  - exists (" " ++ Str.join " " (t' :: r)). apply join_cons.
Qed.

Lemma rstrip_before_fixed (a s : string) :
  Str.rstrip s = s -> s <> "" -> Str.rstrip (a ++ s) = a ++ s.
Proof.
  intros F N. induction a as [|c r IH]; simpl; [exact F|].
  rewrite IH. destruct (r ++ s) eqn:E; [|reflexivity].
  destruct r; [simpl in E; congruence | discriminate E].
Qed.

Lemma split_join (words : list string) (tokens : Forall word_token words) :
  Str.split (Str.join " " words) = words.
Proof.
  induction tokens as [|t r Ht Hr IH]; [reflexivity|].
  destruct (word_token_shape t Ht) as (c & c' & z & E & _ & _ & _ & N).
  destruct r as [|t' r'].
  - simpl. unfold Str.split. rewrite <- (append_empty_r t) at 1.
    rewrite split_from_word by exact N. simpl. now rewrite E.
  - rewrite join_cons. unfold Str.split.
    rewrite split_from_word by exact N. cbn [append Str.split_from].
    change (Char.isspace " ") with true. cbv iota.
    rewrite E at 1. cbn [String.eqb]. f_equal. apply IH.
Qed.

Lemma strip_join (words : list string) (tokens : Forall word_token words) :
  Str.strip (Str.join " " words) = Str.join " " words.
Proof.
  unfold Str.strip.
  assert (Str.lstrip (Str.join " " words) = Str.join " " words) as ->.
  { destruct tokens as [|t r Ht _]; [reflexivity|].
    destruct (word_token_shape t Ht) as (c & c' & z & -> & Nc & _).
    destruct (join_head (String c (String c' z)) r) as [y ->]. simpl.
    unfold not_space in Nc. apply negb_true_iff in Nc. now rewrite Nc. }
  induction tokens as [|t r Ht Hr IH]; [reflexivity|].
  destruct (word_token_shape t Ht) as (c & c' & z & E & _ & _ & _ & N).
  destruct r as [|t' r'].
  - simpl. now apply rstrip_word.
  - rewrite join_cons. apply rstrip_before_fixed.
    + apply (rstrip_before_fixed " "); [exact IH|].
      inversion Hr as [|t0 r0 Ht' _]; subst.
      destruct (word_token_shape t' Ht') as (d & d' & y & -> & _).
      destruct (join_head (String d (String d' y)) r') as [x ->].
      discriminate.
    + discriminate.
Qed.

Lemma trailing_letter_join (words : list string)
    (tokens : Forall word_token words) :
  remove_trailing_letter (Str.join " " words) = Str.join " " words.
Proof.
  induction tokens as [|t r Ht Hr IH]; [reflexivity|].
  destruct (word_token_shape t Ht) as (c & c' & z & E & _ & _ & _ & N).
  destruct r as [|t' r'].
  - simpl. rewrite <- (append_empty_r t) at 1.
    rewrite remove_trailing_letter_word by exact N.
    simpl. apply append_empty_r.
  - rewrite join_cons. rewrite remove_trailing_letter_word by exact N.
    f_equal. set (rest := Str.join " " (t' :: r')) in *.
    inversion Hr as [|t0 r0 Ht' _]; subst.
    destruct (word_token_shape t' Ht')
      as (d & d' & y & Et & Nd & Nd' & Nl & _).
    destruct (join_head t' r') as [x Ex]. fold rest in Ex.
    rewrite Et in Ex. cbn [append] in Ex.
    assert (trailing_letter_at (" " ++ rest) = None) as T.
    { rewrite Ex. unfold trailing_letter_at. cbn [append Re.star].
      change (Char.isspace " ") with true. cbv iota.
      unfold not_space in Nd. apply negb_true_iff in Nd. rewrite Nd.
      unfold at_end. cbn [String.eqb]. rewrite Nl.
      now rewrite andb_false_r. }
    change (" " ++ rest) with (String " " rest) in *.
    cbn [remove_trailing_letter]. rewrite T. now rewrite IH.
Qed.

Lemma output_chars_join (words : list string)
    (tokens : Forall word_token words) :
  Str.forallb output_char (Str.join " " words) = true.
Proof.
  induction tokens as [|t r Ht Hr IH]; [reflexivity|].
  assert (Str.forallb output_char t = true) as O.
  { destruct Ht as [_ T]. eapply forallb_impl; [|exact T].
    intros c Hc. unfold output_char. now rewrite Hc. }
  destruct r as [|t' r']; [exact O|].
  rewrite join_cons, !forallb_append, O, IH. reflexivity.
Qed.

Lemma normalized_words_tokens (name : string) :
  Forall word_token (List.map normalize_word (name_words name)).
Proof.
  apply Forall_map. eapply Forall_impl; [|apply name_words_tokens].
  intros w Hw. now apply normalize_word_token.
Qed.

Lemma clean_is_join (name : string) :
  clean_and_correct_name name
  = Str.join " " (List.map normalize_word (name_words name)).
Proof.
  unfold clean_and_correct_name, clean_and_correct_name_with. cbv zeta.
  rewrite map_map. fold normalize_word.
  change (fun x => Str.capitalize (fix_ocr_errors x)) with normalize_word.
  rewrite strip_join by apply normalized_words_tokens.
  apply trailing_letter_join, normalized_words_tokens.
Qed.

(** X10. The normalizer returns its words, each corrected and
    capitalized, joined by single spaces: the final [strip] and the
    removal of a trailing single letter never change anything, because
    every word has at least two characters.  Splitting the result gives
    those words back. *)
Theorem normalizer_joins_its_words (name : string) :
  let words := List.map normalize_word (name_words name) in
  clean_and_correct_name name = Str.join " " words /\
  Str.split (clean_and_correct_name name) = words /\
  Forall word_token words.
Proof.
  cbv zeta. rewrite clean_is_join. split; [reflexivity|]. split.
  - apply split_join, normalized_words_tokens.
  - apply normalized_words_tokens.
Qed.

(** X11. The name the extractor returns is made of letters, periods,
    apostrophes and spaces only; in particular it holds no digit. *)
Theorem extracted_name_alphabet (text_blocks : list TextBlock.t) :
  let name := Result.name (extract_vit_id_multiline text_blocks) in
  Str.forallb output_char name = true /\
  Str.count Char.isdigit name = 0.
Proof.
  cbv zeta.
  assert (Str.forallb output_char
            (Result.name (extract_vit_id_multiline text_blocks)) = true)
    as O.
  { rewrite extract_name.
    destruct (hd_error _) as [best|]; [|reflexivity].
    rewrite clean_is_join. apply output_chars_join,
      normalized_words_tokens. }
  split; [exact O|].
  induction (Result.name (extract_vit_id_multiline text_blocks))
    as [|c r IH]; [reflexivity|].
  simpl in O |- *. apply andb_true_iff in O. destruct O as [Oc Or].
  rewrite (IH Or).
  assert (Char.isdigit c = false) as ->; [|reflexivity].
  revert Oc. clear.
  destruct c as [[] [] [] [] [] [] [] []]; vm_compute; congruence.
Qed.

(** X12. Normalizing twice is normalizing once. *)
Theorem normalizer_idempotent (name : string) :
  clean_and_correct_name (clean_and_correct_name name)
  = clean_and_correct_name name.
Proof.
  pose proof (normalized_words_tokens name) as T.
  set (words := List.map normalize_word (name_words name)) in *.
  assert (name_words (Str.join " " words) = words) as W.
  { unfold name_words. cbv zeta.
    rewrite split_join by exact T.
    pose proof (output_chars_join words T) as O.
    unfold remove_numbers, remove_special.
    rewrite (filter_id not_digit).
    2:{ eapply forallb_impl; [|exact O]. clear. intro c.
        destruct c as [[] [] [] [] [] [] [] []]; vm_compute; congruence. }
    rewrite (filter_id name_char).
    2:{ eapply forallb_impl; [|exact O]. clear. intro c.
        destruct c as [[] [] [] [] [] [] [] []]; vm_compute; congruence. }
    rewrite split_join by exact T.
    apply forallb_filter_id. apply forallb_forall. intros w Hw.
    rewrite Forall_forall in T. apply Z.leb_le, (T w Hw). }
  rewrite (clean_is_join name). fold words.
  rewrite clean_is_join, W.
  f_equal. unfold words. rewrite map_map.
  apply map_ext_in. intros w Hw.
  apply normalize_word_idem.
  pose proof (name_words_tokens name) as N. rewrite Forall_forall in N.
  now apply N.
Qed.

(** ** AnchorLocator: what it finds *)

Lemma digit_is_word (c : ascii) :
  Char.isdigit c = true -> Char.isword c = true.
Proof.
  destruct c as [[] [] [] [] [] [] [] []]; vm_compute; congruence.
Qed.

Lemma rg_strict_at_whole (s : string) :
  strict_shape s -> Re.rg_strict_at None s = Some s.
Proof.
  unfold strict_shape. simpl.
  destruct s as [|d1 [|d2 [|u1 [|u2 [|u3 [|d3 [|d4 [|d5 [|d6 [|x r]]]]]]]]]];
    try (intro H; rewrite ?andb_false_r in H; discriminate H).
  intro H.
  repeat match type of H with
         | (_ && _)%bool = true =>
             let A := fresh "A" in
             apply andb_true_iff in H; destruct H as [A H]
         end.
  unfold Re.rg_strict_at, Re.boundary. cbn [Re.head Re.word_of Re.rep].
  rewrite (digit_is_word d1 A), A, A0, A1, A2, A3, A4, A5, A6, A7.
  cbn [append Re.last Re.head Re.word_of xorb].
  now rewrite (digit_is_word d6 A7).
Qed.

Lemma first_match_whole (s : string) :
  strict_shape s -> first_match rg_patterns s = Some s.
Proof.
  intro H. unfold first_match, rg_patterns, Re.search.
  destruct s as [|c r]; [discriminate H|].
  cbn [Re.search_from]. now rewrite (rg_strict_at_whole _ H).
Qed.

Lemma find_rg_from_first (pre post : list string) (line m : string)
    (i idx0 : Z) :
  Forall no_identifier pre ->
  first_match rg_patterns (clean_line line) = Some m ->
  find_rg_from i (pre ++ line :: post)%list ("Not Found", idx0)
  = (m, i + Z.of_nat (List.length pre)).
Proof.
  intros Hpre Hm. revert i.
  induction Hpre as [|l r Hl _ IH]; intro i.
  - cbn [app List.length]. rewrite find_rg_from_cons, Hm. cbv zeta.
    cbn [fst].
    destruct (first_match_spec _ _ Hm) as [Hshape _].
    rewrite (identifier_not_sentinel m Hshape). simpl.
    f_equal. lia.
  - cbn [app List.length]. rewrite find_rg_from_cons.
    unfold no_identifier in Hl. rewrite Hl. cbv zeta. cbn [fst].
    change (negb ("Not Found" =? "Not Found")%string) with false.
    cbv iota. rewrite IH. f_equal. lia.
Qed.

(** X13. A line that, upper-cased and freed of spaces and hyphens, is
    exactly two digits, three letters and four digits is always
    recognised: when no line before it holds an identifier, the extractor
    returns that normalized text as the identifier and the position of
    the line as the anchor, whatever follows. *)
Theorem whole_line_identifier_found (text_blocks : list TextBlock.t)
    (pre post : list string) (line : string) :
  lines_of text_blocks = (pre ++ line :: post)%list ->
  Forall no_identifier pre ->
  strict_shape (clean_line line) ->
  Result.rgNumber (extract_vit_id_multiline text_blocks) = clean_line line /\
  Debug.rgFoundAt (Result.debug (extract_vit_id_multiline text_blocks))
  = Z.of_nat (List.length pre).
Proof.
  intros E Hpre Hs.
  pose proof (extract_anchor text_blocks) as EA.
  unfold find_rg in EA. rewrite E in EA.
  rewrite (find_rg_from_first pre post line (clean_line line) 0 (-1) Hpre
             (first_match_whole _ Hs)) in EA.
  injection EA as -> ->. auto.
Qed.

Lemma whole_line_identifier_found_witness :
  Result.rgNumber (extract_vit_id_multiline Sample.spelled_number)
  = clean_line "21 bce-1234" /\
  Debug.rgFoundAt
    (Result.debug (extract_vit_id_multiline Sample.spelled_number))
  = Z.of_nat (List.length ["RAVI KUMAR"]).
Proof.
  apply (whole_line_identifier_found Sample.spelled_number
           ["RAVI KUMAR"] ["21BCE9999"] "21 bce-1234").
  - reflexivity.
  - repeat constructor.
  - vm_compute. reflexivity.
Defined.

Example spelled_number_identifier :
  Result.rgNumber (extract_vit_id_multiline Sample.spelled_number)
  = "21BCE1234".
Proof. vm_compute. reflexivity. Qed.

Lemma forallb_filter_keeps (p q : ascii -> bool) (s : string) :
  Str.forallb p s = true -> Str.forallb p (Str.filter q s) = true.
Proof.
  induction s as [|c r IH]; simpl; [reflexivity|].
  intro H. apply andb_true_iff in H. destruct H as [Hc Hr].
  destruct (q c); simpl; [rewrite Hc|]; now apply IH.
Qed.

Lemma upper_has_no_lower (s : string) :
  Str.forallb (fun c => negb (Char.islower c)) (Str.upper s) = true.
Proof.
  unfold Str.upper. induction s as [|c r IH]; simpl; [reflexivity|].
  rewrite IH.
  assert (Char.islower (Char.upper c) = false) as ->; [|reflexivity].
  destruct c as [[] [] [] [] [] [] [] []]; vm_compute; reflexivity.
Qed.

Lemma clean_line_chars (line : string) :
  Str.forallb identifier_char (clean_line line) = true.
Proof.
  unfold clean_line, Str.remove_char.
  change (fun c => negb (Ascii.eqb c "-")) with (is_not "-").
  change (fun c => negb (Ascii.eqb c " ")) with (is_not " ").
  set (kept := Str.filter (is_not "-") (Str.filter (is_not " ")
                                          (Str.upper line))).
  assert (Str.forallb (is_not "-") kept = true) as A
    by apply forallb_filter.
  assert (Str.forallb (is_not " ") kept = true) as B
    by apply forallb_filter_keeps, forallb_filter.
  assert (Str.forallb (fun c => negb (Char.islower c)) kept = true) as C
    by (do 2 apply forallb_filter_keeps; apply upper_has_no_lower).
  apply (forallb_both (fun c => is_not " " c && is_not "-" c)
           (fun c => negb (Char.islower c))); [| |exact C].
  - intros c H1 H2. unfold identifier_char. unfold is_not in H1.
    now rewrite H1, H2.
  - apply (forallb_both (is_not " ") (is_not "-")); [|exact B|exact A].
    intros c H1 H2. now rewrite H1, H2.
Qed.

Lemma has_shape_length (classes : list (ascii -> bool)) (s : string) :
  has_shape classes s = true -> String.length s = List.length classes.
Proof.
  revert s. induction classes as [|cls rest IH]; intros [|c r]; simpl;
    try discriminate; [reflexivity|].
  intro H. apply andb_true_iff in H. destruct H as [_ H].
  now rewrite (IH r H).
Qed.

Lemma length_append (a b : string) :
  String.length (a ++ b) = (String.length a + String.length b)%nat.
Proof. induction a as [|c r IH]; simpl; [reflexivity | now rewrite IH]. Qed.

Lemma identifier_length (m : string) :
  identifier_shape m -> 8 <= Str.len m.
Proof.
  unfold Str.len.
  intros [H | [(k & Hk & H) |
               (a & w1 & b & w2 & c & -> & Ha & _ & Hb & _ & Hc)]].
  - apply has_shape_length in H. simpl in H. lia.
  - apply has_shape_length in H. rewrite !length_app in H.
    unfold digits, capitals in H. rewrite !repeat_length in H. lia.
  - apply has_shape_length in Ha, Hb, Hc. simpl in Ha, Hb, Hc.
    rewrite !length_append. lia.
Qed.

(** X14. An identifier, when one is found, has at least 8 characters and
    holds no space, no hyphen and no lower-case letter. *)
Theorem identifier_is_normalized (text_blocks : list TextBlock.t) :
  let rg_number := Result.rgNumber (extract_vit_id_multiline text_blocks) in
  rg_number = "Not Found" \/
  (8 <= Str.len rg_number /\
   Str.forallb identifier_char rg_number = true).
Proof.
  cbv zeta. pose proof (extract_anchor text_blocks) as EA.
  destruct (extract_vit_id_multiline text_blocks) as [nm id ok dbg].
  simpl in *. unfold find_rg in EA.
  destruct (find_rg_from_spec (lines_of text_blocks) 0 (-1))
    as [[E _] | (k & line & m & _ & Hm & E & _)];
    cbv zeta in E; rewrite E in EA; injection EA as -> _;
    [now left | right].
  destruct (first_match_spec _ _ Hm) as [Hshape (pre & post & Hsub)].
  split; [now apply identifier_length|].
  pose proof (clean_line_chars line) as C. rewrite Hsub in C.
  rewrite !forallb_append in C.
  apply andb_true_iff in C. destruct C as [_ C].
  apply andb_true_iff in C. now destruct C.
Qed.

(** ** [lambda_handler]: the lines of the Textract response *)

Lemma text_blocks_of_cons (block : Block.t) (rest : list Block.t) :
  text_blocks_of (block :: rest)
  = ((if is_line_block block
      then [ TextBlock.mk (Block.Text block)
               (match Block.Confidence block with
                | Some c => c
                | None => 0%Q
                end)
               (Block.Top block) (Block.Left block) (Block.Height block)
               (Block.Width block) ]
      else []) ++ text_blocks_of rest)%list.
Proof. reflexivity. Qed.

Lemma process_blocks_total_lines (text_blocks : list TextBlock.t) :
  Debug.totalLines (Result.debug (process_blocks text_blocks))
  = Z.of_nat (List.length text_blocks).
Proof.
  unfold process_blocks, extract_vit_id_multiline.
  destruct (find_rg _) as [n i]. simpl. unfold lines_of.
  rewrite length_map. unfold sort_by_top. now rewrite stable_sort_length.
Qed.

(** X15. Only the blocks of type LINE reach the extractor, in the order
    of the response and with their texts: the number of lines reported is
    the number of LINE blocks, and a response without LINE blocks gives
    the two sentinels. *)
Theorem only_line_blocks_are_read (blocks : list Block.t) :
  List.map TextBlock.text (text_blocks_of blocks)
  = List.map Block.Text (List.filter is_line_block blocks) /\
  text_blocks_of (List.filter is_line_block blocks) = text_blocks_of blocks /\
  Debug.totalLines (Result.debug (process_response blocks))
  = Z.of_nat (List.length (List.filter is_line_block blocks)) /\
  (List.filter is_line_block blocks = [] ->
   process_response blocks
   = Result.mk "Unknown" "Not Found" true (Debug.mk 0 (-1) 0 None)).
Proof.
  assert (List.map TextBlock.text (text_blocks_of blocks)
          = List.map Block.Text (List.filter is_line_block blocks)) as M.
  { induction blocks as [|b r IH]; [reflexivity|].
    rewrite text_blocks_of_cons. cbn [List.filter].
    destruct (is_line_block b); simpl; now rewrite IH. }
  split; [exact M|]. split.
  { clear M. induction blocks as [|b r IH]; [reflexivity|].
    cbn [List.filter]. rewrite (text_blocks_of_cons b r).
    destruct (is_line_block b) eqn:L.
    - rewrite text_blocks_of_cons, L. now rewrite IH.
    - exact IH. }
  split.
  { unfold process_response. rewrite process_blocks_total_lines.
    rewrite <- (length_map TextBlock.text), M. now rewrite length_map. }
  intro E. rewrite E in M. simpl in M.
  unfold process_response.
  destruct (text_blocks_of blocks); [reflexivity | discriminate M].
Qed.

(** ** [lambda_handler]: the data URL and the user name *)

Lemma contains_char (c : ascii) (s : string) :
  Str.contains (String c "") s = negb (Str.forallb (is_not c) s).
Proof.
  induction s as [|x r IH]; [reflexivity|].
  cbn [Str.contains Str.forallb String.prefix]. rewrite IH.
  change (is_not c x) with (negb (Ascii.eqb x c)).
  destruct (ascii_dec c x) as [<- | N].
  - rewrite Ascii.eqb_refl. now destruct r.
  - destruct (Ascii.eqb_spec x c) as [-> | _]; [congruence|].
    reflexivity.
Qed.

Lemma split_on_from_none (sep : ascii) (s cur : string) :
  Str.forallb (is_not sep) s = true -> split_on_from sep cur s = [cur ++ s].
Proof.
  revert cur. induction s as [|x r IH]; intros cur H; simpl.
  - now rewrite append_empty_r.
  - simpl in H. apply andb_true_iff in H. destruct H as [Hx Hr].
    unfold is_not in Hx. apply negb_true_iff in Hx. rewrite Hx.
    rewrite IH by exact Hr. now rewrite append_assoc.
Qed.

Lemma split_on_from_first (sep : ascii) (a b cur : string) :
  Str.forallb (is_not sep) a = true ->
  split_on_from sep cur (a ++ String sep b)
  = (cur ++ a) :: split_on_from sep "" b.
Proof.
  revert cur. induction a as [|x r IH]; intros cur H; simpl.
  - now rewrite Ascii.eqb_refl, append_empty_r.
  - simpl in H. apply andb_true_iff in H. destruct H as [Hx Hr].
    unfold is_not in Hx. apply negb_true_iff in Hx. rewrite Hx.
    rewrite IH by exact Hr. now rewrite append_assoc.
Qed.

Lemma split_on_from_pieces (sep : ascii) (s cur : string) :
  Str.forallb (is_not sep) cur = true ->
  Forall (fun piece => Str.forallb (is_not sep) piece = true)
    (split_on_from sep cur s).
Proof.
  revert cur. induction s as [|x r IH]; intros cur H; simpl.
  - now constructor.
  - destruct (Ascii.eqb x sep) eqn:E.
    + constructor; [exact H | now apply IH].
    + apply IH. rewrite forallb_append, H. simpl.
      unfold is_not. now rewrite E.
Qed.

(** X16. What is left of the image data holds no comma.  Data without a
    comma are taken as they are; of a data URL, a header and a payload
    with one comma between them, the payload is taken. *)
Theorem data_url_payload (header payload : string) :
  Str.forallb (is_not ",") header = true ->
  Str.forallb (is_not ",") payload = true ->
  strip_data_url (header ++ "," ++ payload) = payload /\
  strip_data_url payload = payload /\
  (forall image_data,
     Str.forallb (is_not ",") (strip_data_url image_data) = true).
Proof.
  intros Hh Hp. split; [|split].
  - unfold strip_data_url. rewrite contains_char, forallb_append.
    simpl. rewrite andb_false_r. simpl.
    change ("," ++ payload) with (String "," payload).
    unfold split_on. rewrite split_on_from_first by exact Hh.
    rewrite split_on_from_none by exact Hp. reflexivity.
  - unfold strip_data_url. rewrite contains_char, Hp. reflexivity.
  - intro s. unfold strip_data_url. rewrite contains_char.
    destruct (Str.forallb (is_not ",") s) eqn:E; [exact E|]. simpl.
    pose proof (split_on_from_pieces "," s "" eq_refl) as F.
    fold (split_on "," s) in F. rewrite Forall_forall in F.
    destruct (nth_in_or_default 1 (split_on "," s) "") as [I | ->];
      [now apply F | reflexivity].
Qed.

Lemma data_url_payload_witness :
  strip_data_url ("data:image/jpeg;base64" ++ "," ++ "aGVsbG8=")
  = "aGVsbG8=" /\
  strip_data_url "aGVsbG8=" = "aGVsbG8=" /\
  (forall image_data,
     Str.forallb (is_not ",") (strip_data_url image_data) = true).
Proof.
  apply (data_url_payload "data:image/jpeg;base64" "aGVsbG8=");
    reflexivity.
Defined.

(** X17. A new user is named after the part of the e-mail address
    before its first [@]; an address without [@] is taken whole. *)
Theorem new_user_named_after_local_part (local domain : string) :
  Str.forallb (is_not "@") local = true ->
  new_user_full_name (local ++ "@" ++ domain) = local /\
  new_user_full_name local = local.
Proof.
  intro H. unfold new_user_full_name, split_on. split.
  - change ("@" ++ domain) with (String "@" domain).
    now rewrite split_on_from_first.
  - now rewrite split_on_from_none.
Qed.

Lemma new_user_named_after_local_part_witness :
  new_user_full_name ("user" ++ "@" ++ "example.com") = "user" /\
  new_user_full_name "user" = "user".
Proof.
  apply (new_user_named_after_local_part "user" "example.com").
  reflexivity.
Defined.

(** ** ResultAssembler: the debug trace agrees with the result *)

(** X18. In every result the line count is the number of input lines,
    the anchor index is -1 or the index of a line, it is -1 exactly when
    the identifier is "Not Found", no candidate is counted exactly when
    no top candidate is reported, and the name is then "Unknown". *)
Theorem result_trace_consistent (text_blocks : list TextBlock.t) :
  let result := extract_vit_id_multiline text_blocks in
  let debug := Result.debug result in
  Debug.totalLines debug = Z.of_nat (List.length text_blocks) /\
  -1 <= Debug.rgFoundAt debug < Debug.totalLines debug /\
  (Debug.rgFoundAt debug = -1 <-> Result.rgNumber result = "Not Found") /\
  (Debug.candidatesFound debug = 0 <-> Debug.topCandidate debug = None) /\
  (Debug.topCandidate debug = None -> Result.name result = "Unknown").
Proof.
  cbv zeta.
  pose proof (extract_anchor text_blocks) as EA.
  pose proof (find_rg_index_range (lines_of text_blocks)) as R.
  pose proof (extract_name text_blocks) as EN.
  pose proof (extract_top_candidate text_blocks) as ET.
  assert (Debug.totalLines
            (Result.debug (extract_vit_id_multiline text_blocks))
          = Z.of_nat (List.length text_blocks)) as TL.
  { unfold extract_vit_id_multiline.
    destruct (find_rg _) as [n i]. simpl. unfold lines_of.
    now rewrite length_map. }
  assert (Debug.candidatesFound
            (Result.debug (extract_vit_id_multiline text_blocks))
          = Z.of_nat
              (List.length (sort_by_score (name_candidates text_blocks))))
    as CF.
  { unfold extract_vit_id_multiline, name_candidates.
    destruct (find_rg _) as [n i]. reflexivity. }
  rewrite TL, CF, ET, EN.
  unfold find_rg in EA, R.
  destruct (find_rg_from_spec (lines_of text_blocks) 0 (-1))
    as [[E _] | (k & line & m & _ & Hm & E & _)];
    cbv zeta in E; rewrite E in EA, R; injection EA as -> ->;
    unfold lines_of in R; rewrite length_map in R; simpl in R.
  - split; [reflexivity|]. split; [lia|]. split; [tauto|].
    destruct (sort_by_score _); simpl; split; try split;
      try discriminate; try reflexivity; lia.
  - destruct (first_match_spec _ _ Hm) as [Hshape _].
    pose proof (identifier_not_sentinel m Hshape) as N.
    split; [reflexivity|]. split; [lia|]. split.
    + split; [lia|]. intros ->. discriminate N.
    + destruct (sort_by_score _); simpl; split; try split;
        try discriminate; try reflexivity; lia.
Qed.

(** ** CandidateScorer: white space around the text *)

Lemma rstrip_cons (c : ascii) (r : string) :
  Str.rstrip (String c r)
  = match Str.rstrip r with
    | EmptyString =>
        if Char.isspace c then EmptyString else String c EmptyString
    | t => String c t
    end.
Proof. reflexivity. Qed.

Lemma rstrip_idem (s : string) : Str.rstrip (Str.rstrip s) = Str.rstrip s.
Proof.
  induction s as [|c r IH]; [reflexivity|]. rewrite (rstrip_cons c r).
  destruct (Str.rstrip r) as [|d t] eqn:E.
  - destruct (Char.isspace c) eqn:C; [reflexivity|].
    rewrite rstrip_cons. change (Str.rstrip "") with "". now rewrite C.
  - rewrite rstrip_cons, IH. reflexivity.
Qed.

Lemma rstrip_head (c : ascii) (r : string) :
  Char.isspace c = false ->
  exists t, Str.rstrip (String c r) = String c t.
Proof.
  intro C. simpl. destruct (Str.rstrip r) as [|d t].
  - rewrite C. now exists "".
  - now exists (String d t).
Qed.

Lemma lstrip_head (s : string) :
  Str.lstrip s = "" \/
  exists c r, Str.lstrip s = String c r /\ Char.isspace c = false.
Proof.
  induction s as [|c r IH]; [now left|]. simpl.
  destruct (Char.isspace c) eqn:C; [exact IH|].
  right. now exists c, r.
Qed.

Lemma strip_idem (s : string) : Str.strip (Str.strip s) = Str.strip s.
Proof.
  unfold Str.strip.
  destruct (lstrip_head s) as [-> | (c & r & -> & C)]; [reflexivity|].
  destruct (rstrip_head c r C) as [t E]. rewrite E.
  cbn [Str.lstrip]. rewrite C, <- E. apply rstrip_idem.
Qed.

(** X19. White space before and after the text does not change the
    score: the scorer gives the stripped text the score of the text. *)
Theorem score_ignores_outer_space (text : string) (raw_lines : list string)
    (start_idx rg_index num_lines : Z) (near_name_keyword : bool) :
  score_name_candidate_multiline (Str.strip text) raw_lines start_idx
    rg_index num_lines near_name_keyword
  = score_name_candidate_multiline text raw_lines start_idx rg_index
      num_lines near_name_keyword.
Proof.
  unfold score_name_candidate_multiline. rewrite strip_idem.
  destruct (Z.ltb_spec (Str.len (Str.strip text)) 3) as [L | L];
    [now rewrite !orb_true_r|].
  rewrite !orb_false_r.
  destruct (String.eqb_spec text "") as [-> | _]; [reflexivity|].
  destruct (String.eqb_spec (Str.strip text) "") as [E | _];
    [|reflexivity].
  rewrite E in L. vm_compute in L. now destruct L.
Qed.

(** ** CandidateGenerator: nothing that scores is left out *)

Lemma above_anchor_starts_complete (text_blocks : list TextBlock.t)
    (lines : list string) (rg_index search_end num_lines a : Z)
    (m i j : nat) :
  (i <= j < i + m)%nat ->
  let start_idx := a + Z.of_nat j in
  let merged_lines := slice lines start_idx (start_idx + num_lines) in
  let merged_text := Str.join " " merged_lines in
  let score :=
    score_name_candidate_multiline merged_text merged_lines start_idx
      rg_index num_lines false in
  start_idx + num_lines <= search_end ->
  (num_lines > 1 ->
   are_blocks_vertically_close
     (slice text_blocks start_idx (start_idx + num_lines)) = true) ->
  score > 0 ->
  In (Candidate.mk merged_text score num_lines start_idx
        (start_idx + num_lines) merged_lines)
    (above_anchor_starts text_blocks lines rg_index search_end num_lines
       (List.map (fun k => a + Z.of_nat k) (seq i m))).
Proof.
  cbv zeta. revert i. induction m as [|m IH]; intros i Hj Hend Hclose Hpos;
    [lia|].
  cbn [seq List.map above_anchor_starts].
  destruct (Z.gtb_spec (a + Z.of_nat i + num_lines) search_end) as [B | B];
    [lia|].
  destruct (Nat.eq_dec i j) as [-> | N].
  - assert ((num_lines >? 1)
            && negb (are_blocks_vertically_close
                       (slice text_blocks (a + Z.of_nat j)
                          (a + Z.of_nat j + num_lines))) = false) as ->.
    { destruct (Z.gtb_spec num_lines 1) as [G | G]; [|reflexivity].
      rewrite Hclose by lia. reflexivity. }
    destruct (Z.gtb_spec
                (score_name_candidate_multiline
                   (Str.join " "
                      (slice lines (a + Z.of_nat j)
                         (a + Z.of_nat j + num_lines)))
                   (slice lines (a + Z.of_nat j)
                      (a + Z.of_nat j + num_lines))
                   (a + Z.of_nat j) rg_index num_lines false) 0);
      [now left | lia].
  - assert (In (Candidate.mk
                  (Str.join " "
                     (slice lines (a + Z.of_nat j)
                        (a + Z.of_nat j + num_lines)))
                  (score_name_candidate_multiline
                     (Str.join " "
                        (slice lines (a + Z.of_nat j)
                           (a + Z.of_nat j + num_lines)))
                     (slice lines (a + Z.of_nat j)
                        (a + Z.of_nat j + num_lines))
                     (a + Z.of_nat j) rg_index num_lines false)
                  num_lines (a + Z.of_nat j) (a + Z.of_nat j + num_lines)
                  (slice lines (a + Z.of_nat j)
                     (a + Z.of_nat j + num_lines)))
               (above_anchor_starts text_blocks lines rg_index search_end
                  num_lines
                  (List.map (fun k => a + Z.of_nat k) (seq (S i) m))))
      as T by (apply IH; [lia | assumption..]).
    destruct (_ && _); [exact T|].
    destruct (_ >? 0); [now right | exact T].
Qed.

(** X20. The anchor-relative pass leaves out no span that qualifies:
    every span of one to three lines inside the window above the anchor
    whose lines are vertically close (when there are several) and whose
    merge scores above 0 is in the pool, with that score; the [break] of
    the loop only skips spans that would reach the anchor. *)
Theorem above_anchor_complete (text_blocks : list TextBlock.t)
    (lines : list string) (rg_index num_lines start_idx : Z) :
  In num_lines [1; 2; 3] ->
  Z.max 0 (rg_index - 6) <= start_idx ->
  start_idx + num_lines <= rg_index ->
  (num_lines > 1 ->
   are_blocks_vertically_close
     (slice text_blocks start_idx (start_idx + num_lines)) = true) ->
  score_name_candidate_multiline
    (Str.join " " (slice lines start_idx (start_idx + num_lines)))
    (slice lines start_idx (start_idx + num_lines)) start_idx rg_index
    num_lines false > 0 ->
  In (Candidate.mk
        (Str.join " " (slice lines start_idx (start_idx + num_lines)))
        (score_name_candidate_multiline
           (Str.join " " (slice lines start_idx (start_idx + num_lines)))
           (slice lines start_idx (start_idx + num_lines)) start_idx
           rg_index num_lines false)
        num_lines start_idx (start_idx + num_lines)
        (slice lines start_idx (start_idx + num_lines)))
    (above_anchor text_blocks lines rg_index).
Proof.
  intros Hn Hlo Hhi Hclose Hpos.
  assert (1 <= num_lines <= 3) as N
    by (simpl in Hn; destruct Hn as [<- | [<- | [<- | []]]]; lia).
  unfold above_anchor.
  destruct (Z.gtb_spec rg_index 0) as [G | G]; [|lia].
  cbv zeta. apply in_flat_map. exists num_lines. split; [exact Hn|].
  unfold range.
  pose proof (above_anchor_starts_complete text_blocks lines rg_index
                rg_index num_lines (Z.max 0 (rg_index - 6))
                (Z.to_nat (rg_index - Z.max 0 (rg_index - 6))) 0
                (Z.to_nat (start_idx - Z.max 0 (rg_index - 6)))) as C.
  cbv zeta in C.
  replace (Z.max 0 (rg_index - 6)
           + Z.of_nat (Z.to_nat (start_idx - Z.max 0 (rg_index - 6))))
    with start_idx in C by lia.
  apply C; try assumption. lia.
Qed.

Lemma above_anchor_complete_witness :
  In (Candidate.mk
        (Str.join " " (slice (lines_of Sample.scenario_a) 1 (1 + 2)))
        (score_name_candidate_multiline
           (Str.join " " (slice (lines_of Sample.scenario_a) 1 (1 + 2)))
           (slice (lines_of Sample.scenario_a) 1 (1 + 2)) 1 3 2 false)
        2 1 (1 + 2) (slice (lines_of Sample.scenario_a) 1 (1 + 2)))
    (above_anchor Sample.scenario_a (lines_of Sample.scenario_a) 3).
Proof.
  apply (above_anchor_complete Sample.scenario_a
           (lines_of Sample.scenario_a) 3 2 1).
  - simpl. auto.
  - vm_compute. discriminate.
  - vm_compute. discriminate.
  - intros _. vm_compute. reflexivity.
  - vm_compute. reflexivity.
Defined.

Lemma after_keyword_spans_complete (lines : list string)
    (rg_index i num_lines : Z) (spans : list Z) :
  In num_lines spans ->
  i + num_lines < Z.of_nat (List.length lines) ->
  let start_idx := i + 1 in
  let merged_lines := slice lines start_idx (start_idx + num_lines) in
  let merged_text := Str.join " " merged_lines in
  let score :=
    score_name_candidate_multiline merged_text merged_lines start_idx
      rg_index num_lines true in
  score > 0 ->
  In (Candidate.mk merged_text (score + 10) num_lines start_idx
        (start_idx + num_lines) merged_lines)
    (after_keyword_spans lines rg_index i spans).
Proof.
  cbv zeta. intros Hin Hlt Hpos.
  induction spans as [|n rest IH]; [destruct Hin|].
  cbn [after_keyword_spans].
  destruct (Z.ltb_spec (i + n) (Z.of_nat (List.length lines))) as [L | L].
  - destruct (Z.gtb_spec (i + 1 + n) (Z.of_nat (List.length lines)));
      [lia|].
    destruct Hin as [-> | Hin].
    + destruct (Z.gtb_spec
                  (score_name_candidate_multiline
                     (Str.join " " (slice lines (i + 1) (i + 1 + num_lines)))
                     (slice lines (i + 1) (i + 1 + num_lines)) (i + 1)
                     rg_index num_lines true) 0); [now left | lia].
    + destruct (_ >? 0); [right|]; now apply IH.
  - destruct Hin as [-> | Hin]; [lia | now apply IH].
Qed.

Lemma in_enumerate_from_nth {A : Type} (l : list A) (k : Z) (n : nat)
    (x : A) :
  nth_error l n = Some x -> In (k + Z.of_nat n, x) (enumerate_from k l).
Proof.
  revert k n. induction l as [|y r IH]; intros k [|n] H; try discriminate H.
  - injection H as ->. left. f_equal. lia.
  - right. replace (k + Z.of_nat (S n)) with (k + 1 + Z.of_nat n) by lia.
    now apply IH.
Qed.

(** X21. The keyword pass leaves out no span that qualifies: for every
    line that contains "NAME" and every length of one to three lines that
    still fits after it, the merge of the following lines is in the pool
    when it scores above 0, with that score plus 10; the [break] of that
    loop is never taken. *)
Theorem after_keyword_complete (lines : list string)
    (rg_index i num_lines : Z) (line : string) :
  0 <= i ->
  nth_error lines (Z.to_nat i) = Some line ->
  is_keyword_line line = true ->
  In num_lines [1; 2; 3] ->
  i + num_lines < Z.of_nat (List.length lines) ->
  score_name_candidate_multiline
    (Str.join " " (slice lines (i + 1) (i + 1 + num_lines)))
    (slice lines (i + 1) (i + 1 + num_lines)) (i + 1) rg_index num_lines
    true > 0 ->
  In (Candidate.mk
        (Str.join " " (slice lines (i + 1) (i + 1 + num_lines)))
        (score_name_candidate_multiline
           (Str.join " " (slice lines (i + 1) (i + 1 + num_lines)))
           (slice lines (i + 1) (i + 1 + num_lines)) (i + 1) rg_index
           num_lines true + 10)
        num_lines (i + 1) (i + 1 + num_lines)
        (slice lines (i + 1) (i + 1 + num_lines)))
    (after_keyword lines rg_index).
Proof.
  intros Hi Hline Hkw Hn Hlt Hpos.
  unfold after_keyword. apply in_flat_map. exists (i, line). split.
  - unfold enumerate.
    replace i with (0 + Z.of_nat (Z.to_nat i)) at 1 by lia.
    now apply in_enumerate_from_nth.
  - unfold is_keyword_line in Hkw. rewrite Hkw.
    now apply (after_keyword_spans_complete lines rg_index i num_lines).
Qed.

Lemma after_keyword_complete_witness :
  In (Candidate.mk
        (Str.join " " (slice (lines_of Sample.scenario_a) (1 + 1) (1 + 1 + 1)))
        (score_name_candidate_multiline
           (Str.join " "
              (slice (lines_of Sample.scenario_a) (1 + 1) (1 + 1 + 1)))
           (slice (lines_of Sample.scenario_a) (1 + 1) (1 + 1 + 1)) (1 + 1)
           3 1 true + 10)
        1 (1 + 1) (1 + 1 + 1)
        (slice (lines_of Sample.scenario_a) (1 + 1) (1 + 1 + 1)))
    (after_keyword (lines_of Sample.scenario_a) 3).
Proof.
  apply (after_keyword_complete (lines_of Sample.scenario_a) 3 1 1 "NAME").
  - lia.
  - reflexivity.
  - reflexivity.
  - simpl. auto.
  - vm_compute. reflexivity.
  - vm_compute. reflexivity.
Defined.

(** ** What the extractor reads of a line *)

Lemma slice_map {A B : Type} (f : A -> B) (l : list A) (i j : Z) :
  List.map f (slice l i j) = slice (List.map f l) i j.
Proof. unfold slice. now rewrite skipn_map, firstn_map. Qed.

Lemma map_cons_inv {A B : Type} (f : A -> B) (x y : A) (l l' : list A) :
  List.map f (x :: l) = List.map f (y :: l') ->
  f x = f y /\ List.map f l = List.map f l'.
Proof. simpl. intro H. injection H. auto. Qed.

Lemma close_by_footprint (l1 l2 : list TextBlock.t) :
  List.map footprint l1 = List.map footprint l2 ->
  are_blocks_vertically_close l1 = are_blocks_vertically_close l2.
Proof.
  unfold are_blocks_vertically_close. revert l2.
  induction l1 as [|a [|b r] IH]; intros [|a' [|b' r']] H;
    try discriminate H; try reflexivity.
  apply map_cons_inv in H. destruct H as [Ea H].
  pose proof H as Hb. apply map_cons_inv in Hb. destruct Hb as [Eb _].
  change (are_blocks_vertically_close_gap default_max_gap (a :: b :: r))
    with (if Qgtb (gap a b) default_max_gap then false
          else are_blocks_vertically_close_gap default_max_gap (b :: r)).
  change (are_blocks_vertically_close_gap default_max_gap (a' :: b' :: r'))
    with (if Qgtb (gap a' b') default_max_gap then false
          else are_blocks_vertically_close_gap default_max_gap (b' :: r')).
  assert (gap a b = gap a' b') as ->.
  { unfold gap, footprint in *. congruence. }
  now rewrite (IH (b' :: r') H).
Qed.

Lemma lines_by_footprint (l1 l2 : list TextBlock.t) :
  List.map footprint l1 = List.map footprint l2 ->
  lines_of l1 = lines_of l2.
Proof.
  intro H. unfold lines_of.
  assert (forall l,
            List.map (fun block => Str.strip (TextBlock.text block)) l
            = List.map (fun p => Str.strip (fst (fst p)))
                (List.map footprint l)) as E
    by (intro l; now rewrite map_map).
  now rewrite !E, H.
Qed.

Lemma above_anchor_by_footprint (l1 l2 : list TextBlock.t)
    (lines : list string) (rg_index : Z) :
  List.map footprint l1 = List.map footprint l2 ->
  above_anchor l1 lines rg_index = above_anchor l2 lines rg_index.
Proof.
  intro H. unfold above_anchor. destruct (rg_index >? 0); [|reflexivity].
  cbv zeta. apply flat_map_ext. intro n.
  induction (range (Z.max 0 (rg_index - 6)) rg_index) as [|s rest IH];
    [reflexivity|].
  cbn [above_anchor_starts]. rewrite IH.
  rewrite (close_by_footprint (slice l1 s (s + n)) (slice l2 s (s + n)));
    [reflexivity|].
  now rewrite !slice_map, H.
Qed.

Lemma extract_by_footprint (l1 l2 : list TextBlock.t) :
  List.map footprint l1 = List.map footprint l2 ->
  extract_vit_id_multiline l1 = extract_vit_id_multiline l2.
Proof.
  intro H. unfold extract_vit_id_multiline.
  rewrite (lines_by_footprint l1 l2 H).
  destruct (find_rg (lines_of l2)) as [n i].
  now rewrite (above_anchor_by_footprint l1 l2 (lines_of l2) i H).
Qed.

Lemma insert_by_footprint (x1 x2 : TextBlock.t) (l1 l2 : list TextBlock.t) :
  footprint x1 = footprint x2 ->
  List.map footprint l1 = List.map footprint l2 ->
  List.map footprint
    (insert_stable (fun y x => Qgtb (TextBlock.top x) (TextBlock.top y))
       x1 l1)
  = List.map footprint
      (insert_stable (fun y x => Qgtb (TextBlock.top x) (TextBlock.top y))
         x2 l2).
Proof.
  intro Hx. revert l2.
  induction l1 as [|y1 r1 IH]; intros [|y2 r2] H; try discriminate H.
  - simpl. now rewrite Hx.
  - apply map_cons_inv in H. destruct H as [Hy Hr]. cbn [insert_stable].
    assert (TextBlock.top x1 = TextBlock.top x2) as ->
      by (unfold footprint in Hx; congruence).
    assert (TextBlock.top y1 = TextBlock.top y2) as ->
      by (unfold footprint in Hy; congruence).
    destruct (Qgtb (TextBlock.top x2) (TextBlock.top y2)).
    + cbn [List.map]. now rewrite Hy, (IH r2 Hr).
    + cbn [List.map]. now rewrite Hx, Hy, Hr.
Qed.

Lemma sort_by_footprint (l1 l2 : list TextBlock.t) :
  List.map footprint l1 = List.map footprint l2 ->
  List.map footprint (sort_by_top l1) = List.map footprint (sort_by_top l2).
Proof.
  revert l2. induction l1 as [|x1 r1 IH]; intros [|x2 r2] H;
    try discriminate H; [reflexivity|].
  apply map_cons_inv in H. destruct H as [Hx Hr].
  unfold sort_by_top in *. cbn [stable_sort fold_right].
  apply insert_by_footprint; [exact Hx | now apply IH].
Qed.

(** X22. The result depends on the text, the top and the height of each
    line and on nothing else: the OCR confidence, the left edge and the
    width of a line are never used, by the extractor or by the sort
    before it. *)
Theorem confidence_and_columns_unused (blocks1 blocks2 : list TextBlock.t) :
  List.map footprint blocks1 = List.map footprint blocks2 ->
  extract_vit_id_multiline blocks1 = extract_vit_id_multiline blocks2 /\
  process_blocks blocks1 = process_blocks blocks2.
Proof.
  intro H. split; [now apply extract_by_footprint|].
  unfold process_blocks. now apply extract_by_footprint, sort_by_footprint.
Qed.

Lemma confidence_and_columns_unused_witness :
  extract_vit_id_multiline Sample.scenario_b
  = extract_vit_id_multiline Sample.scenario_b_faint /\
  process_blocks Sample.scenario_b = process_blocks Sample.scenario_b_faint.
Proof.
  apply (confidence_and_columns_unused Sample.scenario_b
           Sample.scenario_b_faint).
  reflexivity.
Defined.

(** ** Double-precision arithmetic, by evaluation *)

(** The float 0.1 is 3602879701896397 / 2^55, and 0.1 + 0.2 is the float
    0.30000000000000004, not the float 0.3. *)
Example binary64_tenth :
  (Binary64.round (1 # 10) == 3602879701896397 # 36028797018963968)%Q /\
  (Binary64.add (Binary64.round (1 # 10)) (Binary64.round (2 # 10))
   == Binary64.round (30000000000000004 # 100000000000000000))%Q /\
  ~ (Binary64.add (Binary64.round (1 # 10)) (Binary64.round (2 # 10))
     == Binary64.round (3 # 10))%Q.
Proof.
  split; [vm_compute; reflexivity|].
  split; vm_compute; [reflexivity | discriminate].
Qed.

(** Ties go to the even significand: 2^53 + 1 rounds down to 2^53,
    2^53 + 3 rounds up to 2^53 + 4; below the smallest double, 2^-1075
    rounds to 0 and 3 * 2^-1075 to 2^-1073. *)
Example binary64_ties :
  (Binary64.round (9007199254740993 # 1) == 9007199254740992 # 1)%Q /\
  (Binary64.round (9007199254740995 # 1) == 9007199254740996 # 1)%Q /\
  (Binary64.round (1 # Z.to_pos (2 ^ 1075)) == 0)%Q /\
  (Binary64.round (3 # Z.to_pos (2 ^ 1075)) == 1 # Z.to_pos (2 ^ 1073))%Q.
Proof. repeat split; vm_compute; reflexivity. Qed.
